(** * The Reddit feed fetcher ([fetch_reddit_posts.py]), embedded and verified

    The development follows the script function by function.  Python values
    that come out of [json.loads] are modelled by the type [json]; Python
    [str] by lists of characters; an operation that may raise returns an
    [option] ([None]: an exception was raised); the network, the wall clock
    and the random generator are oracles of a [World], read through a
    counter of the effects performed so far. *)

From Stdlib Require Import ZArith Lia Ascii String DecimalString Bool.
From stdpp Require Import base option list gmap.

Open Scope string_scope.
Open Scope list_scope.
Open Scope Z_scope.

(** ** Python strings *)

(** A Python [str] is a list of characters.  Characters are the code points
    below 256; string literals of the script are written as Rocq strings and
    read as character lists through [py]. *)
Abbreviation pystr := (list ascii).

Definition py (s : string) : list ascii := list_ascii_of_string s.
Coercion py : string >-> list.

(** [str(n)] of an integer, as used by f-strings. *)
Definition str_of_Z (z : Z) : pystr :=
  py (NilZero.string_of_int (Z.to_int z)).

(** [c.isspace()]: the white space of [str.split()] among the code points
    below 256 (TAB..CR, FS..US, space, NEL, NBSP). *)
Definition is_space (c : ascii) : bool :=
  let n := nat_of_ascii c in
  ((9 <=? n) && (n <=? 13) || (28 <=? n) && (n <=? 32)
   || (n =? 133) || (n =? 160))%nat.

(** [c.lower()] on the code points below 256: A-Z and the accented capitals
    U+00C0..U+00DE (the multiplication sign U+00D7 apart) move up by 32. *)
Definition lower_char (c : ascii) : ascii :=
  let n := nat_of_ascii c in
  if ((65 <=? n) && (n <=? 90)
      || (192 <=? n) && (n <=? 222) && negb (n =? 215))%nat
  then ascii_of_nat (n + 32) else c.

Definition lower (s : pystr) : pystr := map lower_char s.

(** [s.startswith(p)] *)
Fixpoint startswith (p s : pystr) : bool :=
  match p, s with
  | [], _ => true
  | _ :: _, [] => false
  | a :: p', b :: s' => Ascii.eqb a b && startswith p' s'
  end.

(** [p in s] for two strings: [p] occurs in [s] as a substring. *)
Fixpoint str_in (p s : pystr) : bool :=
  startswith p s || match s with [] => false | _ :: s' => str_in p s' end.

(** [s.endswith(p)] *)
Definition endswith (p s : pystr) : bool := startswith (reverse p) (reverse s).

(** [s.split()]: the maximal runs of non-space characters, in order.  [w] is
    the word being read. *)
Fixpoint split_from (w s : pystr) : list pystr :=
  match s with
  | [] => match w with [] => [] | _ => [w] end
  | c :: s' =>
      if is_space c
      then match w with [] => split_from [] s' | _ => w :: split_from [] s' end
      else split_from (w ++ [c]) s'
  end.

Definition split (s : pystr) : list pystr := split_from [] s.

(** [sep.join(ws)] *)
Fixpoint join (sep : pystr) (ws : list pystr) : pystr :=
  match ws with
  | [] => []
  | [w] => w
  | w :: ws' => w ++ sep ++ join sep ws'
  end.

(** [s.replace(old, new)] for a non-empty [old] (the script replaces no empty
    string): occurrences are replaced from the left and do not overlap;
    [skip] counts the characters of a replaced occurrence still to pass. *)
Fixpoint replace_go (old new : pystr) (skip : nat) (s : pystr) : pystr :=
  match s with
  | [] => []
  | c :: s' =>
      match skip with
      | S k => replace_go old new k s'
      | O =>
          if startswith old s
          then new ++ replace_go old new (Nat.pred (length old)) s'
          else c :: replace_go old new 0 s'
      end
  end.

Definition replace (old new s : pystr) : pystr := replace_go old new 0 s.

(** ** Text cleaning *)

Definition is_marker (text : pystr) : bool :=
  bool_decide (text = "[deleted]") || bool_decide (text = "[removed]").

(** [' '.join(text.split())] *)
Definition collapse (text : pystr) : pystr := join " " (split text).

(** [text[:n] + "..."] when [len(text) > n] *)
Definition truncate (n : nat) (text : pystr) : pystr :=
  if (n <? length text)%nat then take n text ++ "..." else text.

(** [clean_text] on a [str] argument *)
Definition clean_text (text : pystr) : pystr :=
  match text with
  | [] => ""
  | _ =>
      if is_marker text then ""
      else truncate 500 (collapse text)
  end.

(** the two lines under "Remove markdown formatting" *)
Definition remove_markdown (text : pystr) : pystr :=
  let text := replace "&gt;" ">" (replace "*" "" (replace "**" "" text)) in
  replace "&amp;" "&" (replace "&lt;" "<" text).

(** [clean_comment_text] on a [str] argument *)
Definition clean_comment_text (text : pystr) : pystr :=
  match text with
  | [] => ""
  | _ =>
      if is_marker text then ""
      else truncate 300 (collapse (remove_markdown text))
  end.

(** ** JSON values, as [json.loads] returns them

    Numbers are the integers (a float with an integral value, which is how
    the API delivers [created_utc], behaves as that integer); a [dict] is the
    list of its items, looked up by key. *)
#[warnings="-register-all"]
Inductive json : Type :=
  | JNull                                   (* None *)
  | JBool (b : bool)
  | JNum (n : Z)
  | JStr (s : pystr)
  | JArr (l : list json)
  | JObj (m : list (string * json)).

Abbreviation dict := (list (string * json)).

(** [d[k]] on a dict; [None]: KeyError *)
Fixpoint assoc (k : string) (d : dict) : option json :=
  match d with
  | [] => None
  | (k', v) :: d' => if String.eqb k k' then Some v else assoc k d'
  end.

(** [d.get(k, dflt)] *)
Definition get (d : dict) (k : string) (dflt : json) : json :=
  default dflt (assoc k d).

(** [bool(j)] *)
Definition truthy (j : json) : bool :=
  match j with
  | JNull => false
  | JBool b => b
  | JNum n => negb (n =? 0)
  | JStr s => match s with [] => false | _ => true end
  | JArr l => match l with [] => false | _ => true end
  | JObj m => match m with [] => false | _ => true end
  end.

(** [j == s] for a string [s] *)
Definition is_str (s : pystr) (j : json) : bool :=
  match j with JStr t => bool_decide (t = s) | _ => false end.

(** the receiver of [.get]: AttributeError unless it is a dict *)
Definition as_dict (j : json) : option dict :=
  match j with JObj m => Some m | _ => None end.

(** [j[k]] for a string key: KeyError or TypeError unless [j] is a dict with
    that key *)
Definition getitem (j : json) (k : string) : option json :=
  match j with JObj m => assoc k m | _ => None end.

(** [j[i]] for an integer index [i >= 0] *)
Definition index (j : json) (i : nat) : option json :=
  match j with
  | JArr l => l !! i
  | JStr s => (fun c => JStr [c]) <$> s !! i
  | _ => None
  end.

(** [len(j)] *)
Definition len (j : json) : option nat :=
  match j with
  | JArr l => Some (length l)
  | JStr s => Some (length s)
  | JObj m => Some (length m)
  | _ => None
  end.

(** [k in j] for a string [k]: a key of a dict, an element of a list, a
    substring of a string; TypeError otherwise *)
Definition contains (k : string) (j : json) : option bool :=
  match j with
  | JObj m => Some (bool_decide (is_Some (assoc k m)))
  | JArr l => Some (existsb (is_str k) l)
  | JStr s => Some (str_in k s)
  | _ => None
  end.

(** the elements that [for x in j[:n]] visits *)
Definition slice_iter (n : nat) (j : json) : option (list json) :=
  match j with
  | JArr l => Some (take n l)
  | JStr s => Some ((fun c => JStr [c]) <$> take n s)
  | _ => None
  end.

(** [j[:n]] evaluates without raising *)
Definition sliceable (j : json) : bool :=
  match j with JStr _ | JArr _ => true | _ => false end.

(** [max(j, 1)] *)
Definition max_1 (j : json) : option json :=
  match j with
  | JNum n => Some (JNum (Z.max n 1))
  | JBool true => Some (JBool true)
  | JBool false => Some (JNum 1)
  | _ => None
  end.

(** [clean_text(j)] and [clean_comment_text(j)] for any value [j]: a falsy
    value gives the empty string, a truthy value that is no string has no
    [split] or [replace] *)
Definition clean_text_of (j : json) : option pystr :=
  if negb (truthy j) then Some []
  else match j with JStr s => Some (clean_text s) | _ => None end.

Definition clean_comment_text_of (j : json) : option pystr :=
  if negb (truthy j) then Some []
  else match j with JStr s => Some (clean_comment_text s) | _ => None end.

(** ** Post type and image *)

Definition image_exts : list pystr :=
  [py ".jpg"; py ".jpeg"; py ".png"; py ".gif"; py ".webp"].

(** [any(ext in url.lower() for ext in [...])] for a string [url] *)
Definition has_image_ext (url : pystr) : bool :=
  existsb (fun ext => str_in ext (lower url)) image_exts.

Definition determine_post_type (post : dict) : option pystr :=
  let url := get post "url" (JStr "") in
  let selftext := get post "selftext" (JStr "") in
  if truthy selftext then Some (py "text")
  else
    match url with
    | JStr u =>
        if has_image_ext u then Some (py "image")
        else if truthy url && negb (is_str u (get post "permalink" (JStr "")))
        then Some (py "link")
        else Some (py "text")
    | _ => None
    end.

(** the [try] block of [get_image_url]; [None]: some access failed *)
Definition preview_source_url (post : dict) : option pystr :=
  preview ← assoc "preview" post;
  images ← getitem preview "images";
  first ← index images 0;
  source ← getitem first "source";
  url ← getitem source "url";
  match url with JStr u => Some (replace "&amp;" "&" u) | _ => None end.

Definition get_image_url (post : dict) : option json :=
  match get post "url" (JStr "") with
  | JStr u =>
      if has_image_ext u then Some (JStr u)
      else
        match assoc "preview" post with
        | None => Some JNull
        | Some preview =>
            has ← contains "images" preview;
            if has : bool
            then Some (default JNull (JStr <$> preview_source_url post))
            else Some JNull
        end
  | _ => None
  end.

(** ** The world: network, clock, random generator

    Every effect reads its oracle at the number of effects performed so far
    and advances that counter. *)
Inductive request : Type :=
  | Listing (subreddit : pystr)     (* /r/<subreddit>/hot.json?limit=10 *)
  | CommentsOf (permalink : json).  (* <permalink>.json *)

Record World : Type := {
  (** the decoded body of a GET; [None]: the request or the decoding raised *)
  urlopen : nat -> request -> option json;
  (** [datetime.now()], in microseconds of local civil time *)
  clock : nat -> Z;
  (** the raw draw of the random generator *)
  random : nat -> Z;
  (** [datetime.fromtimestamp(t)] for [t] seconds, in microseconds of local
      civil time; [None]: it raised (out of the platform's range) *)
  fromtimestamp : Z -> option Z;
  (** [str(j)] of a list or a dict *)
  repr : json -> pystr
}.

Definition Eff (A : Type) : Type := nat -> A * nat.

Definition ret {A} (a : A) : Eff A := fun k => (a, k).

Definition bind {A B} (m : Eff A) (f : A -> Eff B) : Eff B :=
  fun k => let (a, k') := m k in f a k'.

Notation "'let*' x ':=' m 'in' f" := (bind m (fun x => f))
  (at level 10, x name, m at level 100, f at level 200, only parsing).

(** the value [{j}] of an f-string *)
Definition format (w : World) (j : json) : pystr :=
  match j with
  | JStr s => s
  | JNull => py "None"
  | JBool true => py "True"
  | JBool false => py "False"
  | JNum n => str_of_Z n
  | _ => repr w j
  end.

(** [diff.days] and [diff.seconds] of a [timedelta] of [diff] microseconds *)
Definition td_days (diff : Z) : Z := diff / 86400000000.
Definition td_seconds (diff : Z) : Z := (diff mod 86400000000) / 1000000.

(** the [if]/[elif] chain of [convert_reddit_time] on [diff = now - post_time] *)
Definition relative_time (diff : Z) : pystr :=
  if 0 <? td_days diff then str_of_Z (td_days diff) ++ " days ago"
  else if 3600 <? td_seconds diff
  then str_of_Z (td_seconds diff / 3600) ++ " hours ago"
  else if 60 <? td_seconds diff
  then str_of_Z (td_seconds diff / 60) ++ " minutes ago"
  else py "just now".

(** the argument of [fromtimestamp]: TypeError unless it is a number *)
Definition as_number (j : json) : option Z :=
  match j with
  | JNum n => Some n
  | JBool b => Some (if b then 1 else 0)
  | _ => None
  end.

Section Fetcher.

Variable w : World.

Definition randint (a b : Z) : Eff Z :=
  fun k => (a + random w k mod (b - a + 1), S k).

Definition datetime_now : Eff Z := fun k => (clock w k, S k).

Definition http_get (r : request) : Eff (option json) :=
  fun k => (urlopen w k r, S k).

Definition convert_reddit_time (utc_timestamp : json) : Eff pystr :=
  if negb (truthy utc_timestamp) then
    let* n := randint 1 6 in ret (str_of_Z n ++ " hours ago")
  else
    match as_number utc_timestamp ≫= fromtimestamp w with
    | Some post_time =>
        let* now := datetime_now in ret (relative_time (now - post_time))
    | None =>
        let* n := randint 1 12 in ret (str_of_Z n ++ " hours ago")
    end.

(** *** Comments of one post *)

(** the children the loop of [fetch_post_comments] visits; [None]: raised *)
Definition comment_children (data : json) : option (list json) :=
  n ← len data;
  if (2 <=? n)%nat then
    second ← index data 1;
    has_data ← contains "data" second;
    if has_data : bool then
      inner ← getitem second "data";
      has_children ← contains "children" inner;
      if has_children : bool then
        children ← getitem inner "children";
        slice_iter 5 children
      else Some []
    else Some []
  else Some [].

Definition processed_comment (comment : dict) (text : pystr) (ups : json)
    (time : pystr) : dict :=
  [ ("author", get comment "author" (JStr "unknown_user"));
    ("text", JStr text);
    ("upvotes", ups);
    ("time", JStr time);
    ("reddit_id", get comment "id" (JStr "")) ]%string.

(** the [for] loop of [fetch_post_comments]; [None]: an exception left it *)
Fixpoint comments_loop (children : list json) (comments : list dict)
    : Eff (option (list dict)) :=
  match children with
  | [] => ret (Some comments)
  | comment_data :: rest =>
      match getitem comment_data "kind" with
      | None => ret None
      | Some kind =>
          if is_str "t1" kind then
            match getitem comment_data "data" ≫= as_dict with
            | None => ret None
            | Some comment =>
                let body := get comment "body" JNull in
                if is_str "[deleted]" body || is_str "[removed]" body
                   || match body with JNull => true | _ => false end
                then comments_loop rest comments
                else
                  match clean_comment_text_of body with
                  | None => ret None
                  | Some comment_text =>
                      if (10 <? length comment_text)%nat then
                        match max_1 (get comment "ups" (JNum 0)) with
                        | None => ret None
                        | Some ups =>
                            let* time := convert_reddit_time
                                      (get comment "created_utc" (JNum 0)) in
                            comments_loop rest
                              (comments ++
                               [processed_comment comment comment_text ups time])
                        end
                      else comments_loop rest comments
                  end
            end
          else comments_loop rest comments
      end
  end.

Definition fetch_post_comments (permalink : json) : Eff (list dict) :=
  let* response := http_get (CommentsOf permalink) in
  match response ≫= comment_children with
  | None => ret []
  | Some children =>
      let* r := comments_loop children [] in
      ret (default [] r)
  end.

(** *** The run *)

Definition subreddits : list pystr :=
  [ py "science"; py "survival"; py "onebag"; py "xxfitness"; py "rustyrails";
    py "blurrypicturesofcats"; py "scams"; py "dbz"; py "cartalkuk";
    py "sales"; py "accidentalwesanderson"; py "worldbuilding"; py "aww";
    py "pics"; py "cozyplaces"; py "malelivingspaces"; py "evilbuildings";
    py "askreddit"; py "todayilearned"; py "explainlikeimfive";
    py "changemyview"; py "unpopularopinion"; py "showerthoughts";
    py "futurology"; py "cogsci" ].

(** The accumulators of the run.  [fetch_log] is a history variable, no
    variable of the script: it records every call of [fetch_post_comments]
    with the sequence id of the post it was made for and the list it
    returned. *)
Record state : Type := {
  all_posts : list dict;
  all_comments : gmap Z (list dict);
  post_id_counter : Z;
  fetch_log : list (Z * list dict)
}.

Definition init : state :=
  {| all_posts := []; all_comments := ∅; post_id_counter := 1;
     fetch_log := [] |}.

Definition processed_post (st : state) (subreddit : pystr) (post : dict)
    (time text type : pystr) (image : json) : dict :=
  [ ("id", JNum (post_id_counter st));
    ("subreddit", JStr subreddit);
    ("title", get post "title" (JStr ""));
    ("author", get post "author" (JStr "unknown_user"));
    ("time", JStr time);
    ("upvotes", get post "ups" (JNum 0));
    ("comments", get post "num_comments" (JNum 0));
    ("text", JStr text);
    ("url", get post "url" (JStr ""));
    ("type", JStr type);
    ("image", image);
    ("reddit_id", get post "id" (JStr ""));
    ("reddit_permalink",
      JStr ("https://reddit.com" ++ format w (get post "permalink" (JStr "")))) ]%string.

(** lines 100-110: the comments of the post just stored, then the next id *)
Definition store_comments (post : dict) (st : state) : Eff state :=
  let reddit_id := get post "id" (JStr "") in
  let permalink := get post "permalink" (JStr "") in
  if truthy reddit_id && truthy permalink then
    let* comments := fetch_post_comments permalink in
    ret {| all_posts := all_posts st;
           all_comments :=
             match comments with
             | [] => all_comments st
             | _ => <[post_id_counter st := comments]> (all_comments st)
             end;
           post_id_counter := post_id_counter st + 1;
           fetch_log := fetch_log st ++ [(post_id_counter st, comments)] |}
  else
    ret {| all_posts := all_posts st;
           all_comments := all_comments st;
           post_id_counter := post_id_counter st + 1;
           fetch_log := fetch_log st |}.

(** The body of the loop over the children of one listing.  The boolean
    tells whether the body ended normally ([false]: an exception left it);
    the state is the one the accumulators are in at that point. *)
Definition process_post (subreddit : pystr) (post_data : json) (st : state)
    : Eff (bool * state) :=
  match getitem post_data "data" ≫= as_dict with
  | None => ret (false, st)
  | Some post =>
      if truthy (get post "removed_by_category" JNull)
         || is_str "[deleted]" (get post "title" JNull)
      then ret (true, st)
      else
        let* time := convert_reddit_time (get post "created_utc" (JNum 0)) in
        match clean_text_of (get post "selftext" (JStr "")),
              determine_post_type post, get_image_url post with
        | Some text, Some type, Some image =>
            let p := processed_post st subreddit post time text type image in
            let st1 := {| all_posts := all_posts st ++ [p];
                          all_comments := all_comments st;
                          post_id_counter := post_id_counter st;
                          fetch_log := fetch_log st |} in
            if sliceable (get post "title" (JStr "")) then
              let* st2 := store_comments post st1 in ret (true, st2)
            else ret (false, st1)
        | _, _, _ => ret (false, st)
        end
  end.

Fixpoint posts_loop (subreddit : pystr) (children : list json) (st : state)
    : Eff (bool * state) :=
  match children with
  | [] => ret (true, st)
  | post_data :: rest =>
      let* r := process_post subreddit post_data st in
      if r.1 then posts_loop subreddit rest r.2 else ret r
  end.

(** the children the loop over one listing visits; [None]: raised *)
Definition listing_children (data : json) : option (list json) :=
  has_data ← contains "data" data;
  if has_data : bool then
    inner ← getitem data "data";
    has_children ← contains "children" inner;
    if has_children : bool then
      children ← getitem inner "children";
      slice_iter 3 children
    else Some []
  else Some [].

(** the [try] block of one subreddit, with its [except ...: continue] *)
Definition fetch_subreddit (subreddit : pystr) (st : state) : Eff state :=
  let* response := http_get (Listing subreddit) in
  match response ≫= listing_children with
  | None => ret st
  | Some children =>
      let* r := posts_loop subreddit children st in ret r.2
  end.

Fixpoint subreddits_loop (subs : list pystr) (st : state) : Eff state :=
  match subs with
  | [] => ret st
  | subreddit :: rest =>
      let* st' := fetch_subreddit subreddit st in subreddits_loop rest st'
  end.

(** ** Output *)

(** The document written to [reddit_posts.json].  A key the script leaves out
    is [None]. *)
Record output_data : Type := {
  total_posts : Z;
  fetch_date : Z;
  subreddits_key : option (list pystr);
  posts : list dict;
  comments : gmap Z (list dict);
  source : option pystr
}.

(** Writing [posts_summary.txt] raises when a stored title cannot be sliced
    ([post['title'][:80]]); the text written is not modelled. *)
Fixpoint write_summary (ps : list dict) : option unit :=
  match ps with
  | [] => Some ()
  | post :: rest =>
      title ← assoc "title" post;
      if sliceable title then write_summary rest else None
  end.

End Fetcher.

Definition create_fallback_posts : list dict :=
  [ [ ("id", JNum 1);
      ("subreddit", JStr "science");
      ("title", JStr "Breakthrough study reveals how social media algorithms fundamentally alter human cognitive patterns");
      ("author", JStr "cognitive_researcher");
      ("time", JStr "4 hours ago");
      ("upvotes", JNum 1847);
      ("comments", JNum 423);
      ("text", JStr "A comprehensive study tracking 50,000 participants reveals how algorithmic content curation affects neural pathways and critical thinking abilities.");
      ("type", JStr "text");
      ("image", JNull) ];
    [ ("id", JNum 2);
      ("subreddit", JStr "blurrypicturesofcats");
      ("title", JStr "My cat moving at the speed of light");
      ("author", JStr "cat_photographer");
      ("time", JStr "2 hours ago");
      ("upvotes", JNum 2341);
      ("comments", JNum 89);
      ("text", JStr "");
      ("type", JStr "image");
      ("image", JStr "https://images.unsplash.com/photo-1514888286974-6c03e2ca1dba?w=600&h=400&fit=crop") ];
    [ ("id", JNum 3);
      ("subreddit", JStr "dbz");
      ("title", JStr "Goku vs Superman: Who would win in a real fight?");
      ("author", JStr "anime_debater");
      ("time", JStr "6 hours ago");
      ("upvotes", JNum 756);
      ("comments", JNum 234);
      ("text", JStr "Settling this debate once and for all with power scaling analysis...");
      ("type", JStr "text");
      ("image", JNull) ] ]%string.

Definition fallback_comment (author text : string) (upvotes : Z)
    (time : string) : dict :=
  [ ("author", JStr author); ("text", JStr text); ("upvotes", JNum upvotes);
    ("time", JStr time) ]%string.

Definition create_fallback_comments : gmap Z (list dict) :=
  <[1 := [ fallback_comment "research_fan"
             "This is fascinating research. The implications for understanding digital communication are huge."
             45 "2 hours ago";
           fallback_comment "skeptical_scientist"
             "While interesting, I wonder about the sample size and methodology. Need to see the peer review."
             23 "1 hour ago" ]]>
  (<[2 := [ fallback_comment "cat_lover_99" "This is art. Pure, blurry art."
              67 "1 hour ago" ]]>
  (<[3 := [ fallback_comment "power_scaler"
              "Goku wins easily. Ultra Instinct is basically unbeatable."
              34 "3 hours ago";
            fallback_comment "superman_fan"
              "Superman has no limits though. He always finds a way to win."
              28 "2 hours ago" ]]> ∅)).

(** [fetch_reddit_posts_and_comments]: the document that [reddit_posts.json]
    holds when the script returns.  The files are taken to be writable.  The
    outer [except] is reached from the summary only: every other statement of
    the outer [try] that can raise stands in the [try] of its subreddit. *)
Definition fetch_reddit_posts_and_comments (w : World) : Eff output_data :=
  let* st := subreddits_loop w subreddits init in
  let* date := datetime_now w in
  let output :=
    {| total_posts := Z.of_nat (length (all_posts st));
       fetch_date := date;
       subreddits_key := Some subreddits;
       posts := all_posts st;
       comments := all_comments st;
       source := None |} in
  let* _ := datetime_now w in
  match write_summary (all_posts st) with
  | Some _ => ret output
  | None =>
      let* date' := datetime_now w in
      ret {| total_posts := Z.of_nat (length create_fallback_posts);
             fetch_date := date';
             subreddits_key := None;
             posts := create_fallback_posts;
             comments := create_fallback_comments;
             source := Some (py "fallback") |}
  end.

(** the document of a run started in a fresh process *)
Definition run (w : World) : output_data :=
  (fetch_reddit_posts_and_comments w 0%nat).1.

(** the accumulators at the end of the loop over the subreddits *)
Definition final_state (w : World) : state :=
  (subreddits_loop w subreddits init 0%nat).1.

(** ** Vocabulary of the statements *)

(** no white space in [u] *)
Definition no_space (u : pystr) : Prop := Forall (fun c => is_space c = false) u.

(** a word: a non-empty string without white space *)
Definition word (u : pystr) : Prop := u ≠ [] ∧ no_space u.

(** Every run of white space is a single space, and none stands at either
    end. *)
Definition single_spaced (s : pystr) : Prop :=
  (∀ c, c ∈ s → is_space c = true → c = " "%char)
  ∧ head s ≠ Some " "%char
  ∧ last s ≠ Some " "%char
  ∧ str_in "  " s = false.

(** only white space in [s] *)
Definition blank (s : pystr) : Prop := Forall (fun c => is_space c = true) s.

(** The text cleaning as the specification words it, one transformation for
    item bodies ([cap = 500]) and sub-item bodies ([cap = 300]): markup
    markers stripped, entities un-escaped, white space collapsed, the result
    truncated to [cap] with an ellipsis. *)
Definition spec_text_cleaning (cap : nat) (text : pystr) : pystr :=
  match text with
  | [] => ""
  | _ =>
      if is_marker text then ""
      else truncate cap (collapse (remove_markdown text))
  end.

(** the unit of a relative time: 3 for days, 2 for hours, 1 for minutes,
    0 for "just now" *)
Definition unit_of (s : pystr) : option nat :=
  if endswith " days ago" s then Some 3%nat
  else if endswith " hours ago" s then Some 2%nat
  else if endswith " minutes ago" s then Some 1%nat
  else if bool_decide (s = "just now") then Some 0%nat
  else None.

(** the unit that [relative_time] chooses for a difference of [diff]
    microseconds *)
Definition unit_rank (diff : Z) : nat :=
  if 0 <? td_days diff then 3%nat
  else if 3600 <? td_seconds diff then 2%nat
  else if 60 <? td_seconds diff then 1%nat
  else 0%nat.

(** The type classification as the specification words it: the URL's
    extension, the suffix the URL ends with, is that of an image. *)
Definition spec_has_image_extension (url : pystr) : bool :=
  existsb (fun ext => endswith ext (lower url)) image_exts.

Definition spec_post_type (selftext url : pystr) (permalink : json) : pystr :=
  if bool_decide (selftext ≠ []) then py "text"
  else if spec_has_image_extension url then py "image"
  else if bool_decide (url ≠ []) && negb (is_str url permalink) then py "link"
  else py "text".

(** *** The children of a comment listing *)

(** the [data] of a child that is a comment (kind [t1]) *)
Definition comment_of (child : json) : option dict :=
  kind ← getitem child "kind";
  if is_str "t1" kind then getitem child "data" ≫= as_dict else None.

(** A child survives the filtering: it is a comment, its body is a string
    and no deletion or removal marker, and its cleaned text is longer than 10
    characters. *)
Definition survives (child : json) : bool :=
  match comment_of child with
  | Some comment =>
      match get comment "body" JNull with
      | JStr body =>
          negb (is_marker body)
          && (10 <? length (clean_comment_text body))%nat
      | _ => false
      end
  | None => false
  end.

(** the cleaned text of a child *)
Definition cleaned_body (child : json) : option json :=
  comment ← comment_of child;
  match get comment "body" JNull with
  | JStr body => Some (JStr (clean_comment_text body))
  | _ => None
  end.

(** A child makes the loop raise: it has no [kind]; or it is a comment
    without a dict as [data], or with a truthy body that is no string, or
    one that survives but has no number as [ups]. *)
Definition raises (child : json) : bool :=
  match getitem child "kind" with
  | None => true
  | Some kind =>
      if is_str "t1" kind then
        match getitem child "data" ≫= as_dict with
        | None => true
        | Some comment =>
            match get comment "body" JNull with
            | JStr _ =>
                survives child
                && bool_decide (max_1 (get comment "ups" (JNum 0)) = None)
            | body => truthy body
            end
        end
      else false
  end.

(** the text of a stored sub-item is longer than 10 characters *)
Definition long_text (c : dict) : Prop :=
  ∃ text, assoc "text" c = Some (JStr text) ∧ (10 < length text)%nat.

(** The sub-items as the specification words them: the filtering first,
    then at most the first 5 of the survivors. *)
Definition spec_subitem_texts (raw : list json) : list (option json) :=
  take 5 (cleaned_body <$> filter survives raw).

(** *** The accumulators of the run *)

(** the sequence ids of a list of stored items, in the order of the list *)
Definition ids (ps : list dict) : list (option json) := assoc "id" <$> ps.

(** the ids 1, 2, ..., n *)
Definition ids_from_1 (n : nat) : list (option json) :=
  (fun i => Some (JNum i)) <$> seqZ 1 (Z.of_nat n).

(** What one pass through the body of the loop over the posts does to the
    accumulators: nothing (the raw item is skipped, or an exception comes
    before the post is stored); or the post is stored and the exception of
    its title comes before its id is passed; or the post is stored under the
    current id, its comments are fetched or not, and the id is passed. *)
Inductive step (st st' : state) : Prop :=
  | step_none : st' = st → step st st'
  | step_title p t :
      assoc "title" p = Some t → sliceable t = false →
      st' = {| all_posts := all_posts st ++ [p];
               all_comments := all_comments st;
               post_id_counter := post_id_counter st;
               fetch_log := fetch_log st |} →
      step st st'
  | step_stored p t fetched :
      assoc "id" p = Some (JNum (post_id_counter st)) →
      assoc "title" p = Some t → sliceable t = true →
      st' = {| all_posts := all_posts st ++ [p];
               all_comments :=
                 match fetched with
                 | Some (c :: cs) =>
                     <[post_id_counter st := c :: cs]> (all_comments st)
                 | _ => all_comments st
                 end;
               post_id_counter := post_id_counter st + 1;
               fetch_log :=
                 match fetched with
                 | Some cs => fetch_log st ++ [(post_id_counter st, cs)]
                 | None => fetch_log st
                 end |} →
      step st st'.

(** The invariant of the accumulators.  Its second part holds as long as
    every stored title can be sliced, that is as long as the summary can be
    written. *)
Definition invariant (st : state) : Prop :=
  (∀ i l, all_comments st !! i = Some l → l ≠ [] ∧ (i, l) ∈ fetch_log st)
  ∧ (∀ i l, (i, l) ∈ fetch_log st →
       ∃ p, p ∈ all_posts st ∧ assoc "id" p = Some (JNum i))
  ∧ (write_summary (all_posts st) = Some () →
     ids (all_posts st) = ids_from_1 (length (all_posts st))
     ∧ post_id_counter st = 1 + Z.of_nat (length (all_posts st))
     ∧ Forall (fun e => 1 ≤ e.1 < post_id_counter st) (fetch_log st)
     ∧ NoDup (fetch_log st).*1
     ∧ (∀ i l, (i, l) ∈ fetch_log st → l ≠ [] →
          all_comments st !! i = Some l)).

(** the channel names of [counts !! 0] items of the first channel, then of
    [counts !! 1] items of the second, and so on *)
Fixpoint blocks (subs : list pystr) (counts : list nat) : list (option json) :=
  match subs, counts with
  | subreddit :: subs', c :: counts' =>
      replicate c (Some (JStr subreddit)) ++ blocks subs' counts'
  | _, _ => []
  end.

(** a piece of the run adds at most [n] posts, all of the channel
    [subreddit] *)
Definition adds (subreddit : pystr) (n : nat) (st st' : state) : Prop :=
  ∃ new, all_posts st' = all_posts st ++ new ∧ (length new ≤ n)%nat
         ∧ Forall (fun p => assoc "subreddit" p = Some (JStr subreddit)) new.

(** *** Stored sub-items and items *)

(** at least one upvote: the values that [max(ups, 1)] returns *)
Definition at_least_one (j : json) : Prop :=
  j = JBool true ∨ ∃ n, j = JNum n ∧ 1 ≤ n.

(** A sub-item as [fetch_post_comments] builds it: its five keys in the
    order of the script, a text of 11 to 303 characters without asterisk, at
    least one upvote, a relative time. *)
Definition wf_comment (c : dict) : Prop :=
  c.*1 = ["author"; "text"; "upvotes"; "time"; "reddit_id"]%string
  ∧ (∃ text, assoc "text" c = Some (JStr text)
             ∧ (10 < length text ≤ 303)%nat ∧ "*"%char ∉ text)
  ∧ (∃ ups, assoc "upvotes" c = Some ups ∧ at_least_one ups)
  ∧ (∃ time, assoc "time" c = Some (JStr time) ∧ is_Some (unit_of time)).

(** An item as the run stores it: a sequence id, the name of one of the
    channels, a relative time, a single-spaced text of at most 503
    characters, one of the three type tags, and as image null or a string, a
    string when the type is ['image']. *)
Definition wf_post (p : dict) : Prop :=
  (∃ i, assoc "id" p = Some (JNum i))
  ∧ (∃ s, assoc "subreddit" p = Some (JStr s) ∧ s ∈ subreddits)
  ∧ (∃ time, assoc "time" p = Some (JStr time) ∧ is_Some (unit_of time))
  ∧ (∃ text, assoc "text" p = Some (JStr text)
             ∧ (length text ≤ 503)%nat ∧ single_spaced text)
  ∧ (∃ t, assoc "type" p = Some (JStr t)
          ∧ (t = py "text" ∨ t = py "image" ∨ t = py "link"))
  ∧ (∃ image, assoc "image" p = Some image
              ∧ (image = JNull ∨ ∃ u, image = JStr u))
  ∧ (assoc "type" p = Some (JStr "image") →
     ∃ u, assoc "image" p = Some (JStr u)).

(** [p] is the record that the loop body builds for the raw post [post] in
    the state [st] *)
Definition stored_as (w : World) (subreddit : pystr) (st : state)
    (post p : dict) : Prop :=
  ∃ text type image k,
    truthy (get post "removed_by_category" JNull)
      || is_str "[deleted]" (get post "title" JNull) = false
    ∧ clean_text_of (get post "selftext" (JStr "")) = Some text
    ∧ determine_post_type post = Some type
    ∧ get_image_url post = Some image
    ∧ p = processed_post w st subreddit post
            (convert_reddit_time w (get post "created_utc" (JNum 0)) k).1
            text type image.

(** One pass through the body of the loop over the posts, with what it
    stores: nothing; or the record of a post whose title cannot be sliced,
    the id not being passed; or the record of a post without native id or
    permalink; or the record of a post and the sub-items fetched for it. *)
Inductive pass (w : World) (subreddit : pystr) (st st' : state) : Prop :=
  | pass_none : st' = st → pass w subreddit st st'
  | pass_title post p :
      stored_as w subreddit st post p →
      sliceable (get post "title" (JStr "")) = false →
      st' = {| all_posts := all_posts st ++ [p];
               all_comments := all_comments st;
               post_id_counter := post_id_counter st;
               fetch_log := fetch_log st |} →
      pass w subreddit st st'
  | pass_quiet post p :
      stored_as w subreddit st post p →
      sliceable (get post "title" (JStr "")) = true →
      truthy (get post "id" (JStr ""))
        && truthy (get post "permalink" (JStr "")) = false →
      st' = {| all_posts := all_posts st ++ [p];
               all_comments := all_comments st;
               post_id_counter := post_id_counter st + 1;
               fetch_log := fetch_log st |} →
      pass w subreddit st st'
  | pass_fetched post p k cs :
      stored_as w subreddit st post p →
      sliceable (get post "title" (JStr "")) = true →
      truthy (get post "id" (JStr ""))
        && truthy (get post "permalink" (JStr "")) = true →
      cs = (fetch_post_comments w (get post "permalink" (JStr "")) k).1 →
      st' = {| all_posts := all_posts st ++ [p];
               all_comments :=
                 match cs with
                 | [] => all_comments st
                 | _ => <[post_id_counter st := cs]> (all_comments st)
                 end;
               post_id_counter := post_id_counter st + 1;
               fetch_log := fetch_log st ++ [(post_id_counter st, cs)] |} →
      pass w subreddit st st'.

(** the entries of the mapping: their keys, their lists, the posts they
    belong to *)
Definition entries_ok (st : state) : Prop :=
  1 ≤ post_id_counter st
  ∧ ∀ i l, all_comments st !! i = Some l →
      1 ≤ i < post_id_counter st
      ∧ (1 ≤ length l ≤ 5)%nat
      ∧ Forall wf_comment l
      ∧ ∃ p, p ∈ all_posts st ∧ assoc "id" p = Some (JNum i)
             ∧ truthy (get p "reddit_id" JNull) = true.

(** every key of the mapping is below the next id *)
Definition keys_below (st : state) : Prop :=
  ∀ i l, all_comments st !! i = Some l → i < post_id_counter st.

(** from [st] to [st'] nothing stored is lost *)
Definition grows (st st' : state) : Prop :=
  all_posts st `prefix_of` all_posts st'
  ∧ fetch_log st `prefix_of` fetch_log st'
  ∧ post_id_counter st ≤ post_id_counter st'
  ∧ (keys_below st → keys_below st' ∧ all_comments st ⊆ all_comments st').

(** ** Sample worlds *)

(** [datetime.fromtimestamp] of a POSIX platform whose local time is UTC: it
    converts the seconds of the years 1 to 9999. *)
Definition posix_fromtimestamp (t : Z) : option Z :=
  if (-62135596800 <=? t) && (t <=? 253402300799)
  then Some (t * 1000000) else None.

(** a world over the network [net], read at 2023-11-14 22:13:20 UTC *)
Definition sample_world (net : nat -> request -> option json) : World :=
  {| urlopen := net;
     clock := fun _ => 1700000000000000;
     random := fun k => Z.of_nat k;
     fromtimestamp := posix_fromtimestamp;
     repr := fun _ => [] |}.

(** a comment child with the body [body], and the response that lists the
    children [raw] *)
Definition comment_child (body : string) : json :=
  JObj [ ("kind", JStr "t1");
         ("data", JObj [ ("author", JStr "someone"); ("body", JStr body);
                         ("ups", JNum 3); ("created_utc", JNum 1699990000);
                         ("id", JStr "c1") ]) ]%string.

Definition comment_listing (raw : list json) : json :=
  JArr [ JObj [("kind", JStr "Listing")]%string;
         JObj [("kind", JStr "Listing");
               ("data", JObj [("children", JArr raw)])]%string ].

(** six comments, the first of them deleted *)
Definition six_comments : list json :=
  [ comment_child "[deleted]";
    comment_child "the first comment that is kept";
    comment_child "the second comment that is kept";
    comment_child "the third comment that is kept";
    comment_child "the fourth comment that is kept";
    comment_child "the fifth comment that would be kept" ].

(** a raw post and the response that lists the posts [raw] *)
Definition post_child (title id permalink : string) : json :=
  JObj [ ("kind", JStr "t3");
         ("data", JObj [ ("title", JStr title); ("author", JStr "someone");
                         ("id", JStr id); ("permalink", JStr permalink);
                         ("selftext", JStr "some  text"); ("url", JStr "");
                         ("ups", JNum 10); ("num_comments", JNum 6);
                         ("created_utc", JNum 1699990000) ]) ]%string.

Definition post_listing (raw : list json) : json :=
  JObj [("kind", JStr "Listing");
        ("data", JObj [("children", JArr raw)])]%string.

(** Every comment request is answered by [six_comments]; the listing of
    [science] holds a post with a permalink and a post without one; no other
    listing is answered. *)
Definition six_comments_world : World :=
  sample_world (fun _ r =>
    match r with
    | CommentsOf _ => Some (comment_listing six_comments)
    | Listing subreddit =>
        if bool_decide (subreddit = py "science")
        then Some (post_listing [ post_child "first" "p1" "/r/science/p1";
                                  post_child "second" "p2" "" ])
        else None
    end).

(** a link post whose picture comes with its preview *)
Definition preview_post : dict :=
  [ ("title", JStr "a gallery"); ("url", JStr "https://example.com/gallery");
    ("selftext", JStr ""); ("permalink", JStr "/r/pics/1");
    ("preview",
      JObj [("images",
              JArr [JObj [("source",
                            JObj [("url", JStr "https://img.example.com/a?x=1&amp;y=2")])]])]) ]%string.

(** no request succeeds *)
Definition offline : World := sample_world (fun _ _ => None).

(** * Properties *)

Example clean_text_ex1 :
  clean_text "  Hello,
   world  " = "Hello, world".
Proof. reflexivity. Qed.

Example clean_comment_text_ex1 :
  clean_comment_text "**bold** and *it* &gt; 1 &amp;&amp; x &lt; 2" =
  "bold and it > 1 && x < 2".
Proof. reflexivity. Qed.

Example clean_text_truncates :
  clean_text (repeat "a"%char 501) = repeat "a"%char 500 ++ "...".
Proof. vm_compute. reflexivity. Qed.

(** ** Strings *)

Section StringFacts.

Implicit Types (s u v p : pystr) (c : ascii) (ws : list pystr).

#[local] Arguments Ascii.eqb : simpl never.
#[local] Arguments is_space : simpl never.

Lemma startswith_app p s : startswith p (p ++ s) = true.
Proof.
  induction p as [|a p IH]; simpl; [done|].
  by rewrite Ascii.eqb_refl, IH.
Qed.

Lemma startswith_spec p s : startswith p s = true ↔ ∃ t, s = p ++ t.
Proof.
  split.
  - revert s. induction p as [|a p IH]; intros [|b s] H; simpl in *; eauto.
    + discriminate.
    + apply andb_true_iff in H as [Hab H]. apply Ascii.eqb_eq in Hab as ->.
      destruct (IH _ H) as [t ->]. eauto.
  - intros [t ->]. apply startswith_app.
Qed.

Lemma str_in_cons p c s :
  str_in p (c :: s) = startswith p (c :: s) || str_in p s.
Proof. reflexivity. Qed.

Lemma str_in_app_r p u s : str_in p s = true → str_in p (u ++ s) = true.
Proof.
  intros H. induction u as [|c u IH]; simpl; [done|].
  rewrite IH. apply orb_true_r.
Qed.

Lemma str_in_spec p s : str_in p s = true ↔ ∃ u t, s = u ++ p ++ t.
Proof.
  split.
  - induction s as [|c s IH]; simpl; intros H.
    + rewrite orb_false_r in H. apply startswith_spec in H as [t Ht].
      exists [], t. done.
    + apply orb_true_iff in H as [H|H].
      * apply startswith_spec in H as [t Ht]. exists [], t. done.
      * destruct (IH H) as (u & t & ->). exists (c :: u), t. done.
  - intros (u & t & ->). apply str_in_app_r.
    destruct (p ++ t) eqn:E; simpl.
    + destruct p; [done | discriminate].
    + rewrite <- E, startswith_app. done.
Qed.

Lemma endswith_app p s : endswith p (s ++ p) = true.
Proof. unfold endswith. rewrite reverse_app. apply startswith_app. Qed.

(** a suffix occurs *)
Lemma endswith_str_in p s : endswith p s = true → str_in p s = true.
Proof.
  unfold endswith. intros H. apply startswith_spec in H as [t Ht].
  apply str_in_spec. exists (reverse t), [].
  rewrite app_nil_r, <- (reverse_involutive s), Ht, reverse_app.
  by rewrite reverse_involutive.
Qed.

Lemma str_in_head_elem c p s : str_in (c :: p) s = true → c ∈ s.
Proof.
  intros H. apply str_in_spec in H as (u & t & ->).
  apply elem_of_app. right. left.
Qed.

(** *** [split] and [join] *)

Lemma split_from_no_space u w s :
  no_space u → split_from w (u ++ s) = split_from (w ++ u) s.
Proof.
  intros Hu. revert w. induction Hu as [|c u Hc _ IH]; intros w; simpl.
  - by rewrite app_nil_r.
  - rewrite Hc, IH, <- app_assoc. done.
Qed.

Lemma split_from_words w s : no_space w → Forall word (split_from w s).
Proof.
  revert w. induction s as [|c s IH]; intros w Hw; simpl.
  - destruct w; [constructor|]. constructor; [by split | constructor].
  - destruct (is_space c) eqn:Hc.
    + destruct w.
      * apply IH. constructor.
      * constructor; [by split|]. apply IH. constructor.
    + apply IH. apply Forall_app. split; [done|]. by constructor.
Qed.

Lemma split_words s : Forall word (split s).
Proof. apply split_from_words. constructor. Qed.

Lemma split_join ws : Forall word ws → split (join " " ws) = ws.
Proof.
  unfold split. induction 1 as [|u ws [Hne Hu] Hws IH]; [done|].
  destruct ws as [|u' ws].
  - pose proof (split_from_no_space u [] [] Hu) as E.
    rewrite app_nil_r in E. simpl in *. rewrite E. destruct u; done.
  - change (join " " (u :: u' :: ws)) with (u ++ " " ++ join " " (u' :: ws)).
    remember (join " " (u' :: ws)) as rest.
    rewrite split_from_no_space by done.
    destruct u; [done|]. simpl. by rewrite IH.
Qed.

(** collapsing is idempotent *)
Lemma collapse_idem s : collapse (collapse s) = collapse s.
Proof. unfold collapse. by rewrite split_join by apply split_words. Qed.

Lemma split_collapse s : split (collapse s) = split s.
Proof. unfold collapse. apply split_join, split_words. Qed.

Lemma elem_of_join c ws :
  c ∈ join " " ws → c = " "%char ∨ ∃ u, u ∈ ws ∧ c ∈ u.
Proof.
  induction ws as [|u ws IH]; simpl.
  - intros H. by apply elem_of_nil in H.
  - destruct ws as [|u' ws].
    + intros H. right. exists u. split; [left | done].
    + intros H. apply elem_of_app in H as [H|H].
      * right. exists u. split; [left | done].
      * apply elem_of_cons in H as [->|H]; [by left|].
        destruct (IH H) as [->|(v & Hv & Hc)]; [by left|].
        right. exists v. split; [by right | done].
Qed.

Lemma elem_of_split_from c u w s :
  u ∈ split_from w s → c ∈ u → c ∈ w ∨ c ∈ s.
Proof.
  revert w. induction s as [|a s IH]; intros w; simpl.
  - destruct w; intros H Hc.
    + by apply elem_of_nil in H.
    + apply list_elem_of_singleton in H as ->. by left.
  - destruct (is_space a).
    + destruct w.
      * intros H Hc. destruct (IH _ H Hc) as [?|?]; [by left|]. right. by right.
      * intros H Hc. apply elem_of_cons in H as [->|H]; [by left|].
        destruct (IH _ H Hc) as [Hn|?]; [by apply elem_of_nil in Hn|].
        right. by right.
    + intros H Hc. destruct (IH _ H Hc) as [Hw|?]; [|right; by right].
      apply elem_of_app in Hw as [?|Ha]; [by left|].
      apply list_elem_of_singleton in Ha as ->. right. left.
Qed.

(** collapsing adds nothing but spaces *)
Lemma elem_of_collapse c s : c ∈ collapse s → c = " "%char ∨ c ∈ s.
Proof.
  intros H. apply elem_of_join in H as [?|(u & Hu & Hc)]; [by left|].
  destruct (elem_of_split_from _ _ _ _ Hu Hc) as [Hn|?]; [|by right].
  by apply elem_of_nil in Hn.
Qed.

Lemma join_nil_inv ws : Forall word ws → join " " ws = [] → ws = [].
Proof.
  destruct 1 as [|u ws [Hne _] _]; [done|]. simpl.
  destruct ws; [done|]. destruct u; done.
Qed.

Lemma head_join u ws : u ≠ [] → head (join " " (u :: ws)) = head u.
Proof. destruct u; [done|]. destruct ws; done. Qed.

Lemma last_join_cons u u' ws :
  Forall word (u' :: ws) →
  last (join " " (u :: u' :: ws)) = last (join " " (u' :: ws)).
Proof.
  intros Hw.
  change (join " " (u :: u' :: ws)) with (u ++ " " ++ join " " (u' :: ws)).
  destruct (join " " (u' :: ws)) as [|a rest] eqn:E.
  - by apply join_nil_inv in E.
  - rewrite app_assoc. apply (last_app_cons _ rest a).
Qed.

Lemma word_head_no_space u : no_space u → head u ≠ Some " "%char.
Proof. destruct 1 as [|c u Hc _]; [done|]. simpl. by intros [= ->]. Qed.

Lemma word_last_no_space u : no_space u → last u ≠ Some " "%char.
Proof.
  intros Hu Hl. apply last_Some in Hl as [u' ->].
  apply Forall_app in Hu as [_ Hu]. by inversion_clear Hu.
Qed.

Lemma str_in_2sp_no_space u s :
  no_space u → str_in "  " (u ++ s) = str_in "  " s.
Proof.
  induction 1 as [|c u Hc _ IH]; [done|].
  rewrite <- IH. simpl app.
  rewrite str_in_cons. simpl. destruct (Ascii.eqb_spec " " c) as [<-|_]; done.
Qed.

Lemma str_in_2sp_space s :
  head s ≠ Some " "%char → str_in "  " (" "%char :: s) = str_in "  " s.
Proof.
  intros H. rewrite str_in_cons. destruct s as [|c s]; [done|].
  simpl in *. destruct (Ascii.eqb_spec " " c) as [<-|_]; done.
Qed.

Lemma join_single_spaced ws : Forall word ws → single_spaced (join " " ws).
Proof.
  intros Hws. split; [|split; [|split]].
  - intros c Hc Hsp. apply elem_of_join in Hc as [?|(u & Hu & Hc)]; [done|].
    rewrite Forall_forall in Hws. destruct (Hws _ Hu) as [_ Hns].
    rewrite (proj1 (Forall_forall _ _) Hns c Hc) in Hsp. done.
  - destruct Hws as [|u ws [Hne Hu] _]; [done|].
    rewrite head_join by done. by apply word_head_no_space.
  - induction Hws as [|u ws [Hne Hu] Hws IH]; [done|].
    destruct ws as [|u' ws]; [by apply word_last_no_space|].
    by rewrite last_join_cons.
  - induction Hws as [|u ws [Hne Hu] Hws IH]; [done|].
    destruct ws as [|u' ws].
    + simpl. rewrite <- (app_nil_r u). by rewrite str_in_2sp_no_space.
    + change (join " " (u :: u' :: ws)) with (u ++ " " ++ join " " (u' :: ws)).
      rewrite str_in_2sp_no_space by done.
      change (" " ++ join " " (u' :: ws)) with (" "%char :: join " " (u' :: ws)).
      rewrite str_in_2sp_space; [done|].
      inversion_clear Hws as [|?? [Hne' Hu'] _].
      rewrite head_join by done. by apply word_head_no_space.
Qed.

(** a collapsed text has single spaces only, and none at its ends *)
Lemma collapse_single_spaced s : single_spaced (collapse s).
Proof. apply join_single_spaced, split_words. Qed.

Lemma split_from_nil w s :
  split_from w s = [] ↔ w = [] ∧ Forall (fun c => is_space c = true) s.
Proof.
  revert w. induction s as [|c s IH]; intros w; simpl.
  - destruct w; split; try done. by intros [? _].
  - destruct (is_space c) eqn:Hc.
    + destruct w.
      * rewrite IH. split; intros [? H]; split; try done.
        -- by constructor.
        -- by inversion_clear H.
      * split; [done | by intros [? _]].
    + rewrite IH. split.
      * intros [H _]. by destruct w.
      * intros [_ H]. inversion_clear H. congruence.
Qed.

(** the texts that collapse to nothing are the blank ones *)
Lemma collapse_nil s :
  collapse s = [] ↔ Forall (fun c => is_space c = true) s.
Proof.
  unfold collapse. split.
  - intros H. apply join_nil_inv in H; [|apply split_words].
    by apply split_from_nil in H as [_ ?].
  - intros H. unfold split.
    by rewrite (proj2 (split_from_nil [] s) (conj eq_refl H)).
Qed.

(** *** [replace] *)

Lemma replace_go_drop old new k s :
  replace_go old new k s = replace old new (drop k s).
Proof.
  revert k. induction s as [|c s IH]; intros [|k]; try done.
  simpl. apply IH.
Qed.

(** the leftmost occurrence is replaced, and the search resumes behind it *)
Lemma replace_occurrence old new s :
  old ≠ [] → replace old new (old ++ s) = new ++ replace old new s.
Proof.
  destruct old as [|a old]; [done|]. intros _.
  unfold replace at 1. simpl app. cbn [replace_go].
  pose proof (startswith_app (a :: old) s) as E. simpl app in E. rewrite E.
  rewrite replace_go_drop. simpl length. simpl Nat.pred.
  by rewrite drop_app_length.
Qed.

(** a character that starts no occurrence is kept *)
Lemma replace_cons_keep old new c s :
  startswith old (c :: s) = false →
  replace old new (c :: s) = c :: replace old new s.
Proof. intros H. unfold replace. cbn [replace_go]. by rewrite H. Qed.

Lemma replace_absent old new s : str_in old s = false → replace old new s = s.
Proof.
  induction s as [|c s IH]; [done|].
  rewrite str_in_cons. intros H. apply orb_false_iff in H as [H1 H2].
  rewrite replace_cons_keep by done. by rewrite IH.
Qed.

Lemma elem_of_replace_go c old new k s :
  c ∈ replace_go old new k s → c ∈ new ∨ c ∈ s.
Proof.
  revert k. induction s as [|a s IH]; intros k; cbn [replace_go].
  - intros H. by apply elem_of_nil in H.
  - destruct k as [|k].
    + destruct (startswith old (a :: s)).
      * intros H. apply elem_of_app in H as [?|H]; [by left|].
        destruct (IH _ H); [by left | right; by right].
      * intros H. apply elem_of_cons in H as [->|H]; [right; left|].
        destruct (IH _ H); [by left | right; by right].
    + intros H. destruct (IH _ H); [by left | right; by right].
Qed.

Lemma elem_of_replace c old new s :
  c ∈ replace old new s → c ∈ new ∨ c ∈ s.
Proof. apply elem_of_replace_go. Qed.

(** replacing a character by nothing removes all its occurrences *)
Lemma replace_char_nil a s :
  replace [a] [] s = filter (fun x => x ≠ a) s.
Proof.
  induction s as [|c s IH]; [done|].
  destruct (Ascii.eqb_spec a c) as [<-|Hne].
  - change (a :: s) with ([a] ++ s).
    rewrite (replace_occurrence [a] [] s) by done. simpl app.
    rewrite filter_cons_False by (intros H; by apply H). by rewrite IH.
  - rewrite replace_cons_keep.
    + rewrite filter_cons_True by congruence. by rewrite IH.
    + simpl. by destruct (Ascii.eqb_spec a c).
Qed.

Lemma not_elem_of_str_in c p s : c ∉ s → str_in (c :: p) s = false.
Proof.
  intros H. destruct (str_in (c :: p) s) eqn:E; [|done].
  by apply str_in_head_elem in E.
Qed.

(** *** [truncate] *)

Lemma truncate_short n s : (length s ≤ n)%nat → truncate n s = s.
Proof.
  intros H. unfold truncate.
  destruct (Nat.ltb_spec n (length s)); [lia | done].
Qed.

Lemma truncate_long n s :
  (n < length s)%nat → truncate n s = take n s ++ "...".
Proof.
  intros H. unfold truncate.
  destruct (Nat.ltb_spec n (length s)); [done | lia].
Qed.

Lemma length_truncate_long n s :
  (n < length s)%nat → length (truncate n s) = (n + 3)%nat.
Proof.
  intros H. rewrite truncate_long by done.
  rewrite length_app, length_take. simpl. lia.
Qed.

Lemma length_truncate n s : (length (truncate n s) ≤ n + 3)%nat.
Proof.
  destruct (Nat.lt_ge_cases n (length s)).
  - rewrite length_truncate_long; lia.
  - rewrite truncate_short; lia.
Qed.

Lemma truncate_nil_inv n s : truncate n s = [] → s = [].
Proof.
  unfold truncate. destruct (n <? length s)%nat; [|done].
  intros H. apply app_eq_nil in H as [_ H]. discriminate.
Qed.

End StringFacts.

(** ** Text cleaning *)

Section Cleaning.

Implicit Types (text s v : pystr).

Lemma clean_text_eq text :
  clean_text text =
  if bool_decide (text = []) || is_marker text then []
  else truncate 500 (collapse text).
Proof. by destruct text. Qed.

Lemma clean_comment_text_eq text :
  clean_comment_text text =
  if bool_decide (text = []) || is_marker text then []
  else truncate 300 (collapse (remove_markdown text)).
Proof. by destruct text. Qed.

Lemma is_marker_spec text :
  is_marker text = true ↔ text = "[deleted]" ∨ text = "[removed]".
Proof.
  unfold is_marker. rewrite orb_true_iff, !bool_decide_eq_true. done.
Qed.

Lemma filter_replace_2stars n : ∀ text,
  (length text < n)%nat →
  filter (fun c => c ≠ "*"%char) (replace "**" "" text) =
  filter (fun c => c ≠ "*"%char) text.
Proof.
  induction n as [|n IH]; intros text Hn; [lia|].
  destruct text as [|c t]; [done|].
  destruct (startswith "**" (c :: t)) eqn:E.
  - apply startswith_spec in E as [t' E]. rewrite E.
    rewrite replace_occurrence by done.
    change (py "" ++ replace "**" "" t') with (replace "**" "" t').
    rewrite IH.
    + done.
    + apply (f_equal length) in E. rewrite length_app in E.
      simpl in *. lia.
  - rewrite replace_cons_keep by done.
    rewrite !filter_cons, IH by (simpl in Hn; lia). done.
Qed.

(** the two asterisk replacements delete every asterisk *)
Lemma strip_asterisks text :
  replace "*" "" (replace "**" "" text) = filter (fun c => c ≠ "*"%char) text.
Proof.
  change (py "*") with ["*"%char]. change (py "") with (@nil ascii) at 1.
  rewrite replace_char_nil.
  apply (filter_replace_2stars (S (length text))). lia.
Qed.

Lemma remove_markdown_eq text :
  remove_markdown text =
  replace "&amp;" "&"
    (replace "&lt;" "<"
       (replace "&gt;" ">" (filter (fun c => c ≠ "*"%char) text))).
Proof. unfold remove_markdown. by rewrite strip_asterisks. Qed.

Lemma remove_markdown_no_asterisk text : "*"%char ∉ remove_markdown text.
Proof.
  rewrite remove_markdown_eq. intros H.
  apply elem_of_replace in H as [H|H];
    [by apply list_elem_of_singleton in H|].
  apply elem_of_replace in H as [H|H];
    [by apply list_elem_of_singleton in H|].
  apply elem_of_replace in H as [H|H];
    [by apply list_elem_of_singleton in H|].
  apply list_elem_of_filter in H as [H _]. done.
Qed.

(** a text without asterisk and without encoded entity is left as it is *)
Lemma remove_markdown_absent text :
  "*"%char ∉ text →
  str_in "&gt;" text = false → str_in "&lt;" text = false →
  str_in "&amp;" text = false →
  remove_markdown text = text.
Proof.
  intros Hstar Hgt Hlt Hamp. unfold remove_markdown.
  rewrite (replace_absent "**" "" text)
    by (by apply (not_elem_of_str_in "*"%char ["*"%char])).
  rewrite (replace_absent "*" "" text)
    by (by apply (not_elem_of_str_in "*"%char [])).
  by rewrite (replace_absent "&gt;"), (replace_absent "&lt;"),
    (replace_absent "&amp;").
Qed.

Lemma truncate_no_asterisk n s : "*"%char ∉ s → "*"%char ∉ truncate n s.
Proof.
  intros Hs. unfold truncate. destruct (n <? length s)%nat; [|done].
  intros H. apply elem_of_app in H as [H|H].
  - apply Hs. rewrite <- (take_drop n s). apply elem_of_app. by left.
  - repeat (apply elem_of_cons in H as [H|H]; [done|]).
    by apply elem_of_nil in H.
Qed.

Lemma collapse_no_asterisk s : "*"%char ∉ s → "*"%char ∉ collapse s.
Proof. intros Hs H. by apply elem_of_collapse in H as [?|?]. Qed.

Lemma clean_comment_text_no_asterisk text :
  "*"%char ∉ clean_comment_text text.
Proof.
  rewrite clean_comment_text_eq.
  destruct (bool_decide (text = []) || is_marker text).
  - apply not_elem_of_nil.
  - apply truncate_no_asterisk, collapse_no_asterisk,
      remove_markdown_no_asterisk.
Qed.

(** a collapsed text within the cap is cleaned to itself, or (a marker) to
    nothing *)
Lemma clean_text_collapsed v :
  collapse v = v → (length v ≤ 500)%nat →
  clean_text v = v ∨ clean_text v = [].
Proof.
  intros Hv Hlen. rewrite clean_text_eq.
  destruct (bool_decide (v = []) || is_marker v); [by right|].
  left. by rewrite Hv, truncate_short.
Qed.

Lemma clean_comment_text_collapsed v :
  remove_markdown v = v → collapse v = v → (length v ≤ 300)%nat →
  clean_comment_text v = v ∨ clean_comment_text v = [].
Proof.
  intros Hm Hv Hlen. rewrite clean_comment_text_eq.
  destruct (bool_decide (v = []) || is_marker v); [by right|].
  left. by rewrite Hm, Hv, truncate_short.
Qed.

(** an output within the cap was not truncated *)
Lemma truncate_within n s :
  (length (truncate n s) ≤ n)%nat → truncate n s = s.
Proof.
  intros H. destruct (Nat.lt_ge_cases n (length s)) as [Hlt|Hge].
  - rewrite length_truncate_long in H by done. lia.
  - by apply truncate_short.
Qed.

Lemma clean_text_output text :
  clean_text text = [] ∨ clean_text text = truncate 500 (collapse text).
Proof.
  rewrite clean_text_eq.
  destruct (bool_decide (text = []) || is_marker text); [by left | by right].
Qed.

Lemma clean_comment_text_output text :
  clean_comment_text text = []
  ∨ clean_comment_text text = truncate 300 (collapse (remove_markdown text)).
Proof.
  rewrite clean_comment_text_eq.
  destruct (bool_decide (text = []) || is_marker text); [by left | by right].
Qed.

Lemma truncate_shorten cap v :
  truncate cap v = if (length v <=? cap)%nat then v else take cap v ++ "...".
Proof.
  unfold truncate.
  destruct (Nat.ltb_spec cap (length v)), (Nat.leb_spec (length v) cap);
    done || lia.
Qed.

End Cleaning.

(** C3, as amended.  The two cleaners are two transformations.
    [clean_comment_text] (sub-item bodies) deletes every asterisk, replaces
    the encoded entities [&gt;], [&lt;] and [&amp;] (in that order, each
    from the left), collapses every white-space run to one space, trimming
    both ends, and keeps at most 300 characters, followed by [...] when it
    cut.  [clean_text] (item bodies) only collapses the white space and keeps
    at most 500 characters, followed by [...] when it cut: the words of the
    text, markup and entities included, are left as they are.  Both return
    the empty string for an empty text and for a text that is a marker. *)
Theorem text_cleaning (text : pystr) :
  let skipped := bool_decide (text = []) || is_marker text in
  let shorten (cap : nat) (v : pystr) :=
    if (length v <=? cap)%nat then v else take cap v ++ "..." in
  (∃ v, single_spaced v
        ∧ split v =
          split (replace "&amp;" "&"
                   (replace "&lt;" "<"
                      (replace "&gt;" ">"
                         (filter (fun c => c ≠ "*"%char) text))))
        ∧ clean_comment_text text = (if skipped then [] else shorten 300%nat v))
  ∧ ("*"%char ∉ clean_comment_text text)
  ∧ (length (clean_comment_text text) ≤ 303)%nat
  ∧ (∃ v, single_spaced v
          ∧ split v = split text
          ∧ clean_text text = (if skipped then [] else shorten 500%nat v))
  ∧ (length (clean_text text) ≤ 503)%nat.
Proof.
  intros skipped shorten. repeat split.
  - exists (collapse (remove_markdown text)). split; [|split].
    + apply collapse_single_spaced.
    + by rewrite split_collapse, remove_markdown_eq.
    + rewrite clean_comment_text_eq. fold skipped.
      destruct skipped; [done|]. apply truncate_shorten.
  - apply clean_comment_text_no_asterisk.
  - rewrite clean_comment_text_eq.
    destruct (bool_decide (text = []) || is_marker text); [simpl; lia|].
    apply (length_truncate 300).
  - exists (collapse text). split; [|split].
    + apply collapse_single_spaced.
    + apply split_collapse.
    + rewrite clean_text_eq. fold skipped.
      destruct skipped; [done|]. apply truncate_shorten.
  - rewrite clean_text_eq.
    destruct (bool_decide (text = []) || is_marker text); [simpl; lia|].
    apply (length_truncate 500).
Qed.

(** C3, as stated, fails: [clean_text] neither strips the markup markers nor
    un-escapes the entities of an item body. *)
Lemma text_cleaning_not_uniform :
  ¬ (∀ text : pystr,
       clean_text text = spec_text_cleaning 500 text
       ∧ clean_comment_text text = spec_text_cleaning 300 text).
Proof.
  intros H. destruct (H (py "**bold** claim &amp; more")) as [E _].
  vm_compute in E. discriminate.
Qed.

Example clean_text_keeps_markup :
  clean_text "**bold** claim &amp; more" = "**bold** claim &amp; more"
  ∧ clean_comment_text "**bold** claim &amp; more" = "bold claim & more".
Proof. split; reflexivity. Qed.

(** C5, as amended.  [clean_text] returns the empty string exactly for the
    texts that are a deletion marker themselves ([[deleted]] or
    [[removed]]) and for the texts of white space only, the empty text
    among them. *)
Theorem clean_text_empty_iff (text : pystr) :
  clean_text text = [] ↔
  text = "[deleted]" ∨ text = "[removed]" ∨ blank text.
Proof.
  rewrite clean_text_eq.
  destruct (bool_decide (text = []) || is_marker text) eqn:E.
  - split; [intros _ | done].
    apply orb_true_iff in E as [E|E].
    + apply bool_decide_eq_true in E as ->. right. right. constructor.
    + apply is_marker_spec in E. tauto.
  - apply orb_false_iff in E as [_ E]. split.
    + intros H. apply truncate_nil_inv, collapse_nil in H. tauto.
    + intros [H|[H|H]].
      * assert (is_marker text = true) by (apply is_marker_spec; tauto).
        congruence.
      * assert (is_marker text = true) by (apply is_marker_spec; tauto).
        congruence.
      * apply collapse_nil in H. by rewrite H.
Qed.

(** C5, as stated, fails: a text that contains the marker and more is kept. *)
Lemma clean_text_keeps_embedded_marker :
  ¬ (∀ text : pystr,
       str_in "[deleted]" text = true ∨ str_in "[removed]" text = true →
       clean_text text = []).
Proof.
  intros H. specialize (H (py "see the [deleted] reply")).
  vm_compute in H. by specialize (H (or_introl eq_refl)).
Qed.

(** C7, as amended.  On an already cleaned text ([x], an output of the
    cleaner) within the cap, [clean_text] applied twice is [clean_text]
    applied once; so is [clean_comment_text] when [x] holds none of the
    encoded entities. *)
Theorem cleaning_idempotent (y : pystr) :
  (let x := clean_text y in
   (length x ≤ 500)%nat → clean_text (clean_text x) = clean_text x)
  ∧ (let x := clean_comment_text y in
     (length x ≤ 300)%nat →
     str_in "&gt;" x = false → str_in "&lt;" x = false →
     str_in "&amp;" x = false →
     clean_comment_text (clean_comment_text x) = clean_comment_text x).
Proof.
  split.
  - intros x Hlen.
    assert (Hx : clean_text x = x ∨ clean_text x = []).
    { pose proof (clean_text_output y) as E. fold x in E. clearbody x.
      destruct E as [->| ->]; [by right|].
      pose proof (truncate_within _ _ Hlen) as T. rewrite T in Hlen |- *.
      apply clean_text_collapsed; [apply collapse_idem | done]. }
    destruct Hx as [Hx|Hx]; by rewrite !Hx.
  - intros x Hlen Hgt Hlt Hamp.
    assert (Hx : clean_comment_text x = x ∨ clean_comment_text x = []).
    { pose proof (clean_comment_text_no_asterisk y) as Hstar.
      pose proof (clean_comment_text_output y) as E.
      fold x in Hstar, E. clearbody x.
      destruct E as [E|E]; [right; by rewrite E|].
      apply clean_comment_text_collapsed;
        [by apply remove_markdown_absent | | done].
      rewrite E in Hlen. apply truncate_within in Hlen.
      rewrite E, Hlen. apply collapse_idem. }
    destruct Hx as [Hx|Hx]; by rewrite !Hx.
Qed.

Lemma cleaning_idempotent_witness :
  clean_text (clean_text (clean_text "  two   words ")) =
  clean_text (clean_text "  two   words ")
  ∧ clean_comment_text (clean_comment_text (clean_comment_text "*a* &lt; b")) =
    clean_comment_text (clean_comment_text "*a* &lt; b").
Proof.
  split.
  - apply (proj1 (cleaning_idempotent "  two   words ")). vm_compute. lia.
  - apply (proj2 (cleaning_idempotent "*a* &lt; b")); vm_compute; (lia || reflexivity).
Defined.

(** C7, as stated, fails for [clean_comment_text]: an already cleaned comment
    may still hold an encoded entity, which the next cleaning un-escapes. *)
Lemma clean_comment_text_not_idempotent :
  ¬ (∀ y : pystr,
       let x := clean_comment_text y in
       (length x ≤ 300)%nat →
       clean_comment_text (clean_comment_text x) = clean_comment_text x).
Proof.
  intros H. specialize (H (py "&amp;amp;gt; quoted   text")).
  vm_compute in H. assert (Hle : (20 <= 300)%nat) by lia.
  specialize (H Hle). discriminate.
Qed.

Example clean_comment_text_thrice :
  let x := clean_comment_text "&amp;amp;gt; quoted   text" in
  x = "&amp;gt; quoted text"
  ∧ clean_comment_text x = "&gt; quoted text"
  ∧ clean_comment_text (clean_comment_text x) = "> quoted text".
Proof. repeat split; reflexivity. Qed.

(** ** Relative time *)

Section RelativeTime.

Variable w : World.

Implicit Types (ts : json) (k : nat).

Lemma randint_range a b k : a ≤ b → a ≤ (randint w a b k).1 ≤ b.
Proof.
  intros H. unfold randint. simpl.
  pose proof (Z.mod_pos_bound (random w k) (b - a + 1)). lia.
Qed.

Lemma convert_falsy ts k :
  truthy ts = false →
  (convert_reddit_time w ts k).1 =
  str_of_Z (randint w 1 6 k).1 ++ " hours ago".
Proof. intros H. unfold convert_reddit_time. by rewrite H. Qed.

Lemma convert_failed ts k :
  truthy ts = true → as_number ts ≫= fromtimestamp w = None →
  (convert_reddit_time w ts k).1 =
  str_of_Z (randint w 1 12 k).1 ++ " hours ago".
Proof. intros H E. unfold convert_reddit_time. by rewrite H, E. Qed.

Lemma convert_converted ts k post_time :
  truthy ts = true → as_number ts ≫= fromtimestamp w = Some post_time →
  (convert_reddit_time w ts k).1 = relative_time (clock w k - post_time).
Proof. intros H E. unfold convert_reddit_time. by rewrite H, E. Qed.

End RelativeTime.

Section TimeDelta.

Implicit Types (d : Z).

Lemma td_days_pos d : 0 < td_days d ↔ 86400000000 ≤ d.
Proof. unfold td_days. split; intros H; Z.div_mod_to_equations; lia. Qed.

Lemma td_seconds_small d :
  0 ≤ d < 86400000000 → td_seconds d = d / 1000000.
Proof. intros H. unfold td_seconds. by rewrite Z.mod_small. Qed.

Lemma relative_time_days d :
  86400000000 ≤ d → relative_time d = str_of_Z (d / 86400000000) ++ " days ago".
Proof.
  intros H. unfold relative_time.
  destruct (Z.ltb_spec 0 (td_days d)) as [_|Hn]; [done|].
  apply td_days_pos in H. lia.
Qed.

Lemma relative_time_within_day d :
  0 ≤ d < 86400000000 →
  relative_time d =
  if 3600 <? d / 1000000
  then str_of_Z (d / 1000000 / 3600) ++ " hours ago"
  else if 60 <? d / 1000000
  then str_of_Z (d / 1000000 / 60) ++ " minutes ago"
  else py "just now".
Proof.
  intros H. unfold relative_time. rewrite td_seconds_small by done.
  destruct (Z.ltb_spec 0 (td_days d)) as [Hp|_]; [|done].
  apply td_days_pos in Hp. lia.
Qed.

Lemma relative_time_hours d :
  3601000000 ≤ d < 86400000000 →
  relative_time d = str_of_Z (d / 3600000000) ++ " hours ago".
Proof.
  intros H. rewrite relative_time_within_day by lia.
  destruct (Z.ltb_spec 3600 (d / 1000000)) as [_|Hn].
  - by rewrite Z.div_div by lia.
  - Z.div_mod_to_equations. lia.
Qed.

Lemma relative_time_minutes d :
  61000000 ≤ d < 3600000000 →
  relative_time d = str_of_Z (d / 60000000) ++ " minutes ago".
Proof.
  intros H. rewrite relative_time_within_day by lia.
  destruct (Z.ltb_spec 3600 (d / 1000000)) as [Hp|_].
  { Z.div_mod_to_equations. lia. }
  destruct (Z.ltb_spec 60 (d / 1000000)) as [_|Hn].
  - by rewrite Z.div_div by lia.
  - Z.div_mod_to_equations. lia.
Qed.

Lemma relative_time_just_now d :
  0 ≤ d < 60000000 → relative_time d = "just now".
Proof.
  intros H. rewrite relative_time_within_day by lia.
  destruct (Z.ltb_spec 3600 (d / 1000000)) as [Hp|_].
  { Z.div_mod_to_equations. lia. }
  destruct (Z.ltb_spec 60 (d / 1000000)) as [Hp|_]; [|done].
  Z.div_mod_to_equations. lia.
Qed.

End TimeDelta.

Section Units.

Implicit Types (x : pystr) (d : Z).

Lemma unit_of_days x : unit_of (x ++ " days ago") = Some 3%nat.
Proof. unfold unit_of. by rewrite endswith_app. Qed.

Lemma endswith_literal p q x :
  startswith (reverse p) (reverse q) = false →
  (length p ≤ length q)%nat →
  endswith p (x ++ q) = false.
Proof.
  unfold endswith. rewrite reverse_app. intros H Hlen.
  destruct (startswith (reverse p) (reverse q ++ reverse x)) eqn:E; [|done].
  apply startswith_spec in E as [t E].
  assert (reverse q = reverse p ++ take (length q - length p) t) as E'.
  { apply (f_equal (take (length q))) in E.
    rewrite take_app_length' in E by (by rewrite length_reverse).
    rewrite take_app_ge in E by (rewrite length_reverse; lia).
    by rewrite length_reverse in E. }
  rewrite E', startswith_app in H. done.
Qed.

Lemma unit_of_hours x : unit_of (x ++ " hours ago") = Some 2%nat.
Proof.
  unfold unit_of.
  rewrite (endswith_literal " days ago" " hours ago") by (simpl; done || lia).
  by rewrite endswith_app.
Qed.

Lemma unit_of_minutes x : unit_of (x ++ " minutes ago") = Some 1%nat.
Proof.
  unfold unit_of.
  rewrite (endswith_literal " days ago" " minutes ago") by (simpl; done || lia).
  rewrite (endswith_literal " hours ago" " minutes ago") by (simpl; done || lia).
  by rewrite endswith_app.
Qed.

Lemma unit_of_just_now : unit_of "just now" = Some 0%nat.
Proof. reflexivity. Qed.

Lemma unit_of_relative_time d :
  unit_of (relative_time d) = Some (unit_rank d).
Proof.
  unfold relative_time, unit_rank.
  destruct (0 <? td_days d); [apply unit_of_days|].
  destruct (3600 <? td_seconds d); [apply unit_of_hours|].
  destruct (60 <? td_seconds d); [apply unit_of_minutes|].
  apply unit_of_just_now.
Qed.

(** a longer elapsed time never gets a finer unit *)
Lemma unit_rank_mono d1 d2 :
  0 ≤ d1 ≤ d2 → (unit_rank d1 ≤ unit_rank d2)%nat.
Proof.
  intros H. unfold unit_rank, td_days, td_seconds.
  repeat match goal with
         | |- context [?a <? ?b] => destruct (Z.ltb_spec a b)
         end; try lia; exfalso; Z.div_mod_to_equations; lia.
Qed.

Lemma relative_time_format d :
  ∃ N, 1 ≤ N ∧
    (relative_time d = str_of_Z N ++ " days ago"
     ∨ relative_time d = str_of_Z N ++ " hours ago"
     ∨ relative_time d = str_of_Z N ++ " minutes ago"
     ∨ relative_time d = "just now").
Proof.
  unfold relative_time.
  destruct (Z.ltb_spec 0 (td_days d)).
  { exists (td_days d). split; [lia | by left]. }
  destruct (Z.ltb_spec 3600 (td_seconds d)).
  { exists (td_seconds d / 3600). split; [|right; by left].
    Z.div_mod_to_equations. lia. }
  destruct (Z.ltb_spec 60 (td_seconds d)).
  { exists (td_seconds d / 60). split; [|right; right; by left].
    Z.div_mod_to_equations. lia. }
  exists 1. split; [lia | by repeat right].
Qed.

End Units.

(** C2, as amended.  A timestamp that is missing, zero or otherwise falsy
    gets a placeholder ["N hours ago"] with [N] in [1,6]; a timestamp that
    [fromtimestamp] does not convert (no number, or out of its range) gets
    one with [N] in [1,12].  Every other timestamp, a negative one too, is
    converted: when it is not in the future, the result is ["N days ago"]
    (whole days) from one day on, ["N hours ago"] (whole hours) from 3601
    seconds to one day, ["N minutes ago"] (whole minutes) from 61 seconds to
    one hour, and ["just now"] below 60 seconds.  Times are in microseconds. *)
Theorem convert_reddit_time_cases (w : World) (ts : json) (k : nat) :
  let out := (convert_reddit_time w ts k).1 in
  (truthy ts = false →
   ∃ N, 1 ≤ N ≤ 6 ∧ out = str_of_Z N ++ " hours ago")
  ∧ (truthy ts = true → as_number ts ≫= fromtimestamp w = None →
     ∃ N, 1 ≤ N ≤ 12 ∧ out = str_of_Z N ++ " hours ago")
  ∧ (∀ post_time,
       truthy ts = true → as_number ts ≫= fromtimestamp w = Some post_time →
       let elapsed := clock w k - post_time in
       (86400000000 ≤ elapsed →
        out = str_of_Z (elapsed / 86400000000) ++ " days ago")
       ∧ (3601000000 ≤ elapsed < 86400000000 →
          out = str_of_Z (elapsed / 3600000000) ++ " hours ago")
       ∧ (61000000 ≤ elapsed < 3600000000 →
          out = str_of_Z (elapsed / 60000000) ++ " minutes ago")
       ∧ (0 ≤ elapsed < 60000000 → out = "just now")).
Proof.
  intros out. subst out. split; [|split].
  - intros H. rewrite convert_falsy by done.
    eexists. split; [|done]. by apply randint_range.
  - intros H E. rewrite convert_failed by done.
    eexists. split; [|done]. by apply randint_range.
  - intros post_time H E elapsed.
    rewrite (convert_converted _ _ _ _ H E). fold elapsed.
    repeat split; intros Hd.
    + by apply relative_time_days.
    + by apply relative_time_hours.
    + by apply relative_time_minutes.
    + by apply relative_time_just_now.
Qed.

Lemma convert_reddit_time_cases_witness :
  (convert_reddit_time offline (JNum 1699992800) 0%nat).1 = "2 hours ago"
  ∧ (convert_reddit_time offline (JNum (-172800)) 0%nat).1 = "19677 days ago".
Proof.
  split.
  - destruct (convert_reddit_time_cases offline (JNum 1699992800) 0%nat)
      as (_ & _ & H).
    destruct (H 1699992800000000 eq_refl eq_refl) as (_ & Hh & _).
    rewrite Hh by (cbn; lia). reflexivity.
  - destruct (convert_reddit_time_cases offline (JNum (-172800)) 0%nat)
      as (_ & _ & H).
    destruct (H (-172800000000) eq_refl eq_refl) as (Hd & _).
    rewrite Hd by (cbn; lia). reflexivity.
Defined.

(** C2, as stated, fails: a negative timestamp is no placeholder. *)
Lemma convert_reddit_time_negative :
  ¬ ∃ N, 1 ≤ N ≤ 12
         ∧ (convert_reddit_time offline (JNum (-172800)) 0%nat).1 =
           str_of_Z N ++ " hours ago".
Proof.
  intros (N & HN & E).
  assert (unit_of (convert_reddit_time offline (JNum (-172800)) 0%nat).1 =
          Some 2%nat) as U by (rewrite E; apply unit_of_hours).
  vm_compute in U. discriminate.
Qed.

(** at one hour sharp the minutes are still counted, at one minute sharp
    nothing is *)
Example convert_reddit_time_boundaries :
  (convert_reddit_time offline (JNum (1700000000 - 3600)) 0%nat).1 = "60 minutes ago"
  ∧ (convert_reddit_time offline (JNum (1700000000 - 60)) 0%nat).1 = "just now".
Proof. split; reflexivity. Qed.

(** a timestamp in the future *)
Example convert_reddit_time_future :
  (convert_reddit_time offline (JNum (1700000000 + 1)) 0%nat).1 = "23 hours ago".
Proof. reflexivity. Qed.

(** C9, as amended.  [convert_reddit_time] returns for every argument (it is
    a total function: nothing it does can raise past its [except]) one of
    the four formats.  For the timestamps that are not falsy, that
    [fromtimestamp] converts and that are not in the future, a longer elapsed
    time never gets a finer unit. *)
Theorem convert_reddit_time_monotone (w : World) :
  (∀ ts k, ∃ N, 1 ≤ N ∧
     let out := (convert_reddit_time w ts k).1 in
     out = str_of_Z N ++ " days ago" ∨ out = str_of_Z N ++ " hours ago"
     ∨ out = str_of_Z N ++ " minutes ago" ∨ out = "just now")
  ∧ (∀ ts1 ts2 k1 k2 p1 p2,
       truthy ts1 = true → truthy ts2 = true →
       as_number ts1 ≫= fromtimestamp w = Some p1 →
       as_number ts2 ≫= fromtimestamp w = Some p2 →
       0 ≤ clock w k1 - p1 ≤ clock w k2 - p2 →
       ∃ u1 u2,
         unit_of (convert_reddit_time w ts1 k1).1 = Some u1
         ∧ unit_of (convert_reddit_time w ts2 k2).1 = Some u2
         ∧ (u1 ≤ u2)%nat).
Proof.
  split.
  - intros ts k. destruct (truthy ts) eqn:Ht.
    + destruct (as_number ts ≫= fromtimestamp w) as [p|] eqn:E.
      * rewrite (convert_converted _ _ _ _ Ht E). apply relative_time_format.
      * rewrite convert_failed by done. eexists. split; [|right; by left].
        by apply randint_range.
    + rewrite convert_falsy by done. eexists. split; [|right; by left].
      by apply randint_range.
  - intros ts1 ts2 k1 k2 p1 p2 H1 H2 E1 E2 Hd.
    rewrite (convert_converted _ _ _ _ H1 E1), (convert_converted _ _ _ _ H2 E2).
    rewrite !unit_of_relative_time. do 2 eexists. repeat split.
    by apply unit_rank_mono.
Qed.

Lemma convert_reddit_time_monotone_witness :
  ∃ u1 u2,
    unit_of (convert_reddit_time offline (JNum 1699999000) 0%nat).1 = Some u1
    ∧ unit_of (convert_reddit_time offline (JNum 1699900000) 0%nat).1 = Some u2
    ∧ (u1 ≤ u2)%nat.
Proof.
  apply (proj2 (convert_reddit_time_monotone offline)
           (JNum 1699999000) (JNum 1699900000) 0%nat 0%nat
           1699999000000000 1699900000000000);
    try reflexivity.
  cbn. lia.
Defined.

(** C9, as stated, fails at the timestamp 0, which is before every other
    positive timestamp and is treated as missing. *)
Lemma convert_reddit_time_epoch_not_monotone :
  ¬ (∀ t1 t2 : Z,
       0 ≤ t2 ≤ t1 → t1 * 1000000 ≤ clock offline 0%nat →
       ∃ u1 u2,
         unit_of (convert_reddit_time offline (JNum t1) 0%nat).1 = Some u1
         ∧ unit_of (convert_reddit_time offline (JNum t2) 0%nat).1 = Some u2
         ∧ (u1 ≤ u2)%nat).
Proof.
  intros H. destruct (H 1 0) as (u1 & u2 & H1 & H2 & Hle).
  - lia.
  - cbn. lia.
  - vm_compute in H1, H2. injection H1 as <-. injection H2 as <-. lia.
Qed.

Example convert_reddit_time_epoch :
  (convert_reddit_time offline (JNum 1) 0%nat).1 = "19675 days ago"
  ∧ (convert_reddit_time offline (JNum 0) 0%nat).1 = "1 hours ago".
Proof. split; reflexivity. Qed.

(** ** Post type and image *)

Section PostType.

Implicit Types (post : dict) (url u : pystr).

Lemma has_image_ext_spec u :
  has_image_ext u = true ↔
  ∃ ext a b, ext ∈ image_exts ∧ lower u = a ++ ext ++ b.
Proof.
  unfold has_image_ext. rewrite existsb_exists. split.
  - intros (ext & Hin & H). apply str_in_spec in H as (a & b & H).
    exists ext, a, b. by rewrite list_elem_of_In.
  - intros (ext & a & b & Hin & H). exists ext.
    rewrite <- list_elem_of_In. split; [done|].
    apply str_in_spec. eauto.
Qed.

(** a URL that ends with an image suffix holds it *)
Lemma image_extension_has_ext u :
  spec_has_image_extension u = true → has_image_ext u = true.
Proof.
  unfold spec_has_image_extension, has_image_ext. rewrite !existsb_exists.
  intros (ext & Hin & H). exists ext. split; [done|].
  by apply endswith_str_in.
Qed.

Lemma is_str_spec u (j : json) : is_str u j = true ↔ j = JStr u.
Proof.
  destruct j; simpl; try (split; [discriminate | done]).
  rewrite bool_decide_eq_true. split; [by intros -> | by intros [= ->]].
Qed.

Lemma truthy_str u : truthy (JStr u) = bool_decide (u ≠ []).
Proof. by destruct u. Qed.

End PostType.

(** C6, as amended.  For every raw post: ['text'] when its body text is
    truthy; else, the URL being a string, ['image'] when the lower-cased URL
    holds one of the image suffixes anywhere (so also when it ends with one),
    else ['link'] when the URL is non-empty and differs from the permalink,
    else ['text']; a URL that is no string raises once the body text is
    falsy.  A post with URL [http://x.com/cat.jpg] and empty selftext is an
    ['image'], and its image is that URL. *)
Theorem determine_post_type_cases (post : dict) :
  let url := get post "url" (JStr "") in
  let selftext := get post "selftext" (JStr "") in
  let permalink := get post "permalink" (JStr "") in
  (truthy selftext = true → determine_post_type post = Some (py "text"))
  ∧ (∀ u, truthy selftext = false → url = JStr u →
       determine_post_type post =
         Some (if has_image_ext u then py "image"
               else if bool_decide (u ≠ []) && negb (is_str u permalink)
               then py "link"
               else py "text")
       ∧ (has_image_ext u = true → get_image_url post = Some (JStr u))
       ∧ (spec_has_image_extension u = true → has_image_ext u = true))
  ∧ (truthy selftext = false → (∀ u, url ≠ JStr u) →
     determine_post_type post = None)
  ∧ (url = JStr "http://x.com/cat.jpg" → selftext = JStr "" →
     determine_post_type post = Some (py "image")
     ∧ get_image_url post = Some (JStr "http://x.com/cat.jpg")).
Proof.
  intros url selftext permalink. unfold determine_post_type, get_image_url.
  fold url selftext permalink. repeat split.
  - by intros ->.
  - rewrite H, H0. destruct (has_image_ext u); [done|].
    rewrite truthy_str. by destruct (_ && _).
  - rewrite H0. by intros ->.
  - apply image_extension_has_ext.
  - intros -> Hu. destruct url; try done. by destruct (Hu s).
  - by rewrite H, H0.
  - by rewrite H.
Qed.

Lemma determine_post_type_cases_witness :
  let post : dict :=
    [("title", JStr "cat"); ("url", JStr "http://x.com/cat.jpg");
     ("selftext", JStr ""); ("permalink", JStr "/r/aww/1")]%string in
  determine_post_type post = Some (py "image")
  ∧ get_image_url post = Some (JStr "http://x.com/cat.jpg").
Proof.
  intros post.
  apply (proj2 (proj2 (proj2 (determine_post_type_cases post))));
    reflexivity.
Defined.

(** C6, as stated, fails: the image suffix counts wherever it stands in the
    URL, not as its extension only. *)
Lemma determine_post_type_not_by_extension :
  ¬ (∀ (post : dict) (selftext url : pystr),
       get post "selftext" (JStr "") = JStr selftext →
       get post "url" (JStr "") = JStr url →
       determine_post_type post =
         Some (spec_post_type selftext url (get post "permalink" (JStr "")))).
Proof.
  intros H.
  specialize (H [("url", JStr "http://x.com/.gifts/list");
                 ("selftext", JStr ""); ("permalink", JStr "/r/x/1")]%string
                [] (py "http://x.com/.gifts/list") eq_refl eq_refl).
  vm_compute in H. discriminate.
Qed.

Example determine_post_type_gifts :
  let post : dict :=
    [("url", JStr "http://x.com/.gifts/list"); ("selftext", JStr "");
     ("permalink", JStr "/r/x/1")]%string in
  determine_post_type post = Some (py "image")
  ∧ spec_post_type "" "http://x.com/.gifts/list" (JStr "/r/x/1") = "link".
Proof. split; reflexivity. Qed.

(** the scenario of a text post *)
Example determine_post_type_text :
  let post : dict := [("selftext", JStr "hello")]%string in
  determine_post_type post = Some (py "text")
  ∧ get_image_url post = Some JNull.
Proof. split; reflexivity. Qed.

(** ** Comments of one post *)

Section Comments.

Variable w : World.

Implicit Types (child : json) (rest children : list json)
  (acc : list dict) (k : nat).

#[local] Arguments py : simpl never.

Lemma clean_comment_text_of_str body :
  clean_comment_text_of (JStr body) = Some (clean_comment_text body).
Proof. by destruct body. Qed.

Ltac loop_cases child comment body Eb :=
  unfold raises, survives, cleaned_body, comment_of; cbn [comments_loop];
  destruct (getitem child "kind") as [kind|];
    cbn [mbind option_bind]; [|try done];
  destruct (is_str "t1" kind); [|try done];
  destruct (getitem child "data" ≫= as_dict) as [comment|]; [|try done];
  destruct (get comment "body" JNull) as [| [] | n | body | [] | [] ] eqn:Eb;
    cbn [is_str truthy orb clean_comment_text_of negb];
    try done.

Lemma loop_raises child rest acc k :
  raises child = true → (comments_loop w (child :: rest) acc k).1 = None.
Proof.
  loop_cases child comment body Eb.
  - unfold clean_comment_text_of. cbn [truthy]. by intros ->.
  - rewrite clean_comment_text_of_str, orb_false_r. fold (is_marker body).
    intros H. apply andb_true_iff in H as [H Hu].
    apply andb_true_iff in H as [Hm ->].
    apply negb_true_iff in Hm. rewrite Hm.
    apply bool_decide_eq_true in Hu. by rewrite Hu.
Qed.

Lemma loop_skips child rest acc k :
  raises child = false → survives child = false →
  comments_loop w (child :: rest) acc k = comments_loop w rest acc k.
Proof.
  loop_cases child comment body Eb.
  - unfold clean_comment_text_of. cbn [truthy]. by intros ->.
  - rewrite clean_comment_text_of_str, orb_false_r. fold (is_marker body).
    intros _ H. destruct (is_marker body); [done|]. simpl in H. by rewrite H.
Qed.

Lemma loop_keeps child rest acc k :
  raises child = false → survives child = true →
  ∃ c k', assoc "text" c = cleaned_body child ∧ long_text c
          ∧ comments_loop w (child :: rest) acc k =
            comments_loop w rest (acc ++ [c]) k'.
Proof.
  loop_cases child comment body Eb.
  rewrite clean_comment_text_of_str, orb_false_r. fold (is_marker body).
  intros Hr H. rewrite H in Hr.
  apply andb_true_iff in H as [Hm Hlen].
  apply negb_true_iff in Hm. rewrite Hm, Hlen.
  apply bool_decide_eq_false in Hr.
  destruct (max_1 (get comment "ups" (JNum 0))) as [ups|]; [|done].
  unfold bind.
  destruct (convert_reddit_time w (get comment "created_utc" (JNum 0)) k)
    as [time k'].
  exists (processed_comment comment (clean_comment_text body) ups time), k'.
  split; [|split; [|done]].
  - cbn [mbind option_bind]. by rewrite Eb.
  - exists (clean_comment_text body). split; [done|]. by apply Nat.ltb_lt.
Qed.

(** The loop raises exactly when a child raises; otherwise it adds, in the
    order of the children, one comment for each child that survives. *)
Lemma comments_loop_spec children acc k :
  match (comments_loop w children acc k).1 with
  | None => existsb raises children = true
  | Some cs =>
      existsb raises children = false
      ∧ ∃ new, cs = acc ++ new
               ∧ assoc "text" <$> new = cleaned_body <$> filter survives children
               ∧ Forall long_text new
  end.
Proof.
  revert acc k. induction children as [|child rest IH]; intros acc k.
  - simpl. split; [done|]. exists []. by rewrite app_nil_r.
  - cbn [existsb]. destruct (raises child) eqn:Hr.
    { by rewrite loop_raises. }
    destruct (survives child) eqn:Hs.
    + destruct (loop_keeps child rest acc k Hr Hs) as (c & k' & Ht & Hl & ->).
      specialize (IH (acc ++ [c]) k').
      destruct (comments_loop w rest (acc ++ [c]) k').1 as [cs|]; [|done].
      destruct IH as (He & new & -> & Hn & Hf). split; [done|].
      exists (c :: new). rewrite <- app_assoc. split; [done|].
      rewrite filter_cons_True by (by rewrite Hs).
      rewrite !fmap_cons, Ht, Hn. split; [done | by constructor].
    + rewrite loop_skips by done. specialize (IH acc k).
      destruct (comments_loop w rest acc k).1 as [cs|]; [|done].
      destruct IH as (He & new & -> & Hn & Hf). split; [done|].
      exists new. rewrite filter_cons_False; [done|].
      simpl. rewrite Hs. by intros [].
Qed.

Lemma fetch_post_comments_result permalink k :
  (fetch_post_comments w permalink k).1 =
  match urlopen w k (CommentsOf permalink) ≫= comment_children with
  | None => []
  | Some children => default [] (comments_loop w children [] (S k)).1
  end.
Proof.
  unfold fetch_post_comments, bind, http_get.
  destruct (urlopen w k (CommentsOf permalink) ≫= comment_children); [|done].
  by destruct (comments_loop w l [] (S k)).
Qed.

Lemma slice_iter_length n (j : json) l :
  slice_iter n j = Some l → (length l ≤ n)%nat.
Proof.
  destruct j; simpl; try done; intros [= <-].
  - rewrite length_fmap, length_take. lia.
  - rewrite length_take. lia.
Qed.

Lemma comment_children_length (data : json) children :
  comment_children data = Some children → (length children ≤ 5)%nat.
Proof.
  unfold comment_children. intros H.
  repeat (simplify_option_eq; try case_match; simpl in *; try lia).
  by eapply slice_iter_length.
Qed.

Lemma contains_key (j v : json) key :
  getitem j key = Some v → contains key j = Some true.
Proof.
  destruct j; simpl; try done. intros H.
  by rewrite bool_decide_eq_true_2 by (by rewrite H).
Qed.

(** the children visited are the first five of the listing *)
Lemma comment_children_listing listing (second inner : json) raw :
  listing !! 1%nat = Some second →
  getitem second "data" = Some inner →
  getitem inner "children" = Some (JArr raw) →
  comment_children (JArr listing) = Some (take 5 raw).
Proof.
  intros H1 Hd Hc. unfold comment_children. cbn [len index mbind option_bind].
  assert (2 <= length listing)%nat as Hlen.
  { apply lookup_lt_Some in H1. lia. }
  destruct (Nat.leb_spec 2 (length listing)); [|lia].
  rewrite H1. cbn [mbind option_bind].
  rewrite (contains_key _ _ _ Hd), Hd. cbn [mbind option_bind].
  rewrite (contains_key _ _ _ Hc), Hc. done.
Qed.

End Comments.

(** C4, as amended.  [fetch_post_comments] looks at the first 5 children of
    the listing only, and returns those of them that survive the filtering,
    in their order: at most 5 sub-items, an initial part of the survivors of
    the whole listing, none with a cleaned text of 10 characters or less,
    none from a body that is a deletion or removal marker or null.  When one
    of these 5 children makes the loop raise, it returns the empty list. *)
Theorem fetch_post_comments_first_five (w : World) (permalink : json)
    (k : nat) :
  let result := (fetch_post_comments w permalink k).1 in
  (length result ≤ 5)%nat
  ∧ Forall long_text result
  ∧ (∀ listing second inner raw,
       urlopen w k (CommentsOf permalink) = Some (JArr listing) →
       listing !! 1%nat = Some second →
       getitem second "data" = Some inner →
       getitem inner "children" = Some (JArr raw) →
       let first_five := take 5 raw in
       (existsb raises first_five = true → result = [])
       ∧ (existsb raises first_five = false →
          assoc "text" <$> result = cleaned_body <$> filter survives first_five)
       ∧ filter survives first_five `prefix_of` filter survives raw).
Proof.
  intros result. subst result. rewrite fetch_post_comments_result.
  split; [|split].
  - destruct (urlopen w k (CommentsOf permalink) ≫= comment_children)
      as [children|] eqn:E; [|simpl; lia].
    apply bind_Some in E as (data & _ & E).
    apply comment_children_length in E.
    pose proof (comments_loop_spec w children [] (S k)) as H.
    destruct (comments_loop w children [] (S k)).1 as [cs|]; [|simpl; lia].
    destruct H as (_ & new & -> & Hn & _). simpl.
    apply (f_equal length) in Hn. rewrite !length_fmap in Hn. rewrite Hn.
    etrans; [apply length_filter | done].
  - destruct (urlopen w k (CommentsOf permalink) ≫= comment_children)
      as [children|]; [|constructor].
    pose proof (comments_loop_spec w children [] (S k)) as H.
    destruct (comments_loop w children [] (S k)).1 as [cs|]; [|constructor].
    by destruct H as (_ & new & -> & _ & Hf).
  - intros listing second inner raw Hu H1 Hd Hc first_five.
    rewrite Hu. cbn [mbind option_bind].
    rewrite (comment_children_listing _ _ _ _ H1 Hd Hc). fold first_five.
    pose proof (comments_loop_spec w first_five [] (S k)) as H.
    destruct (comments_loop w first_five [] (S k)).1 as [cs|].
    + destruct H as (He & new & -> & Hn & _). rewrite He.
      split; [done|]. split; [done|].
      exists (filter survives (drop 5 raw)). unfold first_five.
      by rewrite <- filter_app, take_drop.
    + rewrite H. split; [done|]. split; [done|].
      exists (filter survives (drop 5 raw)). unfold first_five.
      by rewrite <- filter_app, take_drop.
Qed.

Lemma fetch_post_comments_first_five_witness :
  assoc "text" <$> (fetch_post_comments six_comments_world (JStr "/r/x/1") 0%nat).1 =
  [ Some (JStr "the first comment that is kept");
    Some (JStr "the second comment that is kept");
    Some (JStr "the third comment that is kept");
    Some (JStr "the fourth comment that is kept") ].
Proof.
  destruct (fetch_post_comments_first_five six_comments_world
              (JStr "/r/x/1") 0%nat) as (_ & _ & H).
  destruct (H _ _ _ six_comments eq_refl eq_refl eq_refl eq_refl)
    as (_ & -> & _); reflexivity.
Defined.

(** C4, as stated, fails: with six comments of which the first is deleted,
    the first 5 survivors are the five others, and four are returned. *)
Lemma fetch_post_comments_not_five_survivors :
  ¬ (∀ (w : World) (permalink : json) (k : nat) listing second inner raw,
       urlopen w k (CommentsOf permalink) = Some (JArr listing) →
       listing !! 1%nat = Some second →
       getitem second "data" = Some inner →
       getitem inner "children" = Some (JArr raw) →
       assoc "text" <$> (fetch_post_comments w permalink k).1 =
       spec_subitem_texts raw).
Proof.
  intros H.
  specialize (H six_comments_world (JStr "/r/x/1") 0%nat _ _ _ six_comments
                eq_refl eq_refl eq_refl eq_refl).
  apply (f_equal length) in H. vm_compute in H. discriminate.
Qed.

Example fetch_post_comments_six :
  length (fetch_post_comments six_comments_world (JStr "/r/x/1") 0%nat).1 = 4%nat
  ∧ length (spec_subitem_texts six_comments) = 5%nat.
Proof. split; reflexivity. Qed.

(** ** The run *)

Section Run.

Variable w : World.

Implicit Types (st : state) (k : nat) (ps : list dict).

Lemma write_summary_Forall ps :
  write_summary ps = Some () ↔
  Forall (fun p => ∃ t, assoc "title" p = Some t ∧ sliceable t = true) ps.
Proof.
  induction ps as [|q ps IH]; simpl.
  - split; [constructor | done].
  - destruct (assoc "title" q) as [t|] eqn:Et; simpl.
    + destruct (sliceable t) eqn:Es.
      * rewrite IH. split; intros H.
        -- constructor; eauto.
        -- by inversion H.
      * split; [done|]. intros H.
        inversion H as [|?? (t' & Et' & Es') _]. congruence.
    + split; [done|]. intros H.
      inversion H as [|?? (t' & Et' & Es') _]. congruence.
Qed.

Lemma write_summary_app ps p :
  write_summary (ps ++ [p]) = Some () ↔
  write_summary ps = Some ()
  ∧ ∃ t, assoc "title" p = Some t ∧ sliceable t = true.
Proof.
  rewrite !write_summary_Forall, Forall_app, Forall_singleton. done.
Qed.

Lemma ids_from_1_S n :
  ids_from_1 (S n) = ids_from_1 n ++ [Some (JNum (1 + Z.of_nat n))].
Proof.
  unfold ids_from_1.
  replace (Z.of_nat (S n)) with (Z.of_nat n + 1) by lia.
  rewrite seqZ_app by lia. rewrite fmap_app. f_equal.
Qed.

Lemma invariant_init : invariant init.
Proof.
  split; [|split].
  - intros i l H. simpl in H. by rewrite lookup_empty in H.
  - intros i l H. by apply elem_of_nil in H.
  - intros _. simpl. repeat split; try done; try constructor.
    intros i l H. by apply elem_of_nil in H.
Qed.

Lemma step_invariant st st' : invariant st → step st st' → invariant st'.
Proof.
  intros (Hc & Hl & Hs) [-> | p t Ht Hbad -> | p t fetched Hid Ht Hok ->].
  - done.
  - split; [|split]; simpl.
    + done.
    + intros i l H. destruct (Hl i l H) as (q & Hq & Hi).
      exists q. split; [|done]. apply elem_of_app. by left.
    + intros H. apply write_summary_app in H as (_ & t' & Ht' & Hok).
      congruence.
  - split; [|split]; simpl.
    + intros i l H. destruct fetched as [[|c cs]|].
      * destruct (Hc i l H) as [? ?]. split; [done|].
        apply elem_of_app. by left.
      * destruct (decide (i = post_id_counter st)) as [->|Hne].
        -- rewrite lookup_insert_eq in H. injection H as <-.
           split; [done|]. apply elem_of_app. right. left.
        -- rewrite lookup_insert_ne in H by done.
           destruct (Hc i l H) as [? ?]. split; [done|].
           apply elem_of_app. by left.
      * by apply Hc.
    + intros i l H.
      assert ((i, l) ∈ fetch_log st ∨ i = post_id_counter st) as [Hold| ->].
      { destruct fetched as [cs|]; [|by left].
        apply elem_of_app in H as [?|H]; [by left|].
        apply list_elem_of_singleton in H as [= -> ->]. by right. }
      * destruct (Hl i l Hold) as (q & Hq & Hi).
        exists q. split; [|done]. apply elem_of_app. by left.
      * exists p. split; [|done]. apply elem_of_app. right. left.
    + intros H. apply write_summary_app in H as (H & _).
      destruct (Hs H) as (Hids & Hcnt & Hbound & Hnd & Hlook).
      assert (∀ i l, (i, l) ∈ fetch_log st → i ≠ post_id_counter st) as Hfresh.
      { intros i l Hin ->. rewrite Forall_forall in Hbound.
        specialize (Hbound _ Hin). simpl in Hbound. lia. }
      split; [|split; [|split; [|split]]].
      * unfold ids in *. rewrite fmap_app, length_app, Hids. simpl.
        rewrite Nat.add_1_r, ids_from_1_S, Hid, Hcnt. done.
      * rewrite length_app. simpl. lia.
      * assert (Forall (fun e => 1 ≤ e.1 < post_id_counter st + 1)
                  (fetch_log st)) as Hb'.
        { eapply Forall_impl; [exact Hbound|]. simpl. intros; lia. }
        destruct fetched as [cs|]; [|done].
        apply Forall_app. split; [done|].
        apply Forall_singleton. simpl. lia.
      * destruct fetched as [cs|]; [|done].
        rewrite fmap_app. apply NoDup_app. split; [done|]. split.
        -- intros i Hi Hi'. apply list_elem_of_singleton in Hi'. simpl in Hi'.
           apply list_elem_of_fmap in Hi as ([i' l] & -> & Hin).
           by apply (Hfresh _ _ Hin).
        -- apply NoDup_singleton.
      * intros i l Hin Hne.
        assert ((i, l) ∈ fetch_log st
                ∨ (i = post_id_counter st ∧ fetched = Some l)) as [Hold|[-> ->]].
        { destruct fetched as [cs|]; [|by left].
          apply elem_of_app in Hin as [?|Hin]; [by left|].
          apply list_elem_of_singleton in Hin as [= -> ->]. by right. }
        -- assert (all_comments st !! i = Some l) as Hi by (by apply Hlook).
           destruct fetched as [[|c cs]|]; try done.
           rewrite lookup_insert_ne; [done|].
           intros Heq. by apply (Hfresh _ _ Hold).
        -- destruct l as [|c cs]; [done|]. by rewrite lookup_insert_eq.
Qed.

Lemma store_comments_step post st p t k :
  assoc "id" p = Some (JNum (post_id_counter st)) →
  assoc "title" p = Some t → sliceable t = true →
  step st
    (store_comments w post
       {| all_posts := all_posts st ++ [p];
          all_comments := all_comments st;
          post_id_counter := post_id_counter st;
          fetch_log := fetch_log st |} k).1.
Proof.
  intros Hid Ht Hok. unfold store_comments.
  destruct (truthy (get post "id" (JStr "")) &&
            truthy (get post "permalink" (JStr ""))).
  - unfold bind.
    destruct (fetch_post_comments w (get post "permalink" (JStr "")) k)
      as [cs k'].
    apply (step_stored _ _ p t (Some cs)); try done. by destruct cs.
  - by apply (step_stored _ _ p t None).
Qed.

Lemma process_post_step subreddit (post_data : json) st k :
  step st (process_post w subreddit post_data st k).1.2.
Proof.
  unfold process_post.
  destruct (getitem post_data "data" ≫= as_dict) as [post|]; [|by apply step_none].
  destruct (truthy (get post "removed_by_category" JNull)
            || is_str "[deleted]" (get post "title" JNull)); [by apply step_none|].
  unfold bind.
  destruct (convert_reddit_time w (get post "created_utc" (JNum 0)) k)
    as [time k1].
  destruct (clean_text_of (get post "selftext" (JStr ""))) as [text|];
    [|by apply step_none].
  destruct (determine_post_type post) as [type|]; [|by apply step_none].
  destruct (get_image_url post) as [image|]; [|by apply step_none].
  destruct (sliceable (get post "title" (JStr ""))) eqn:Es.
  - match goal with
    | |- context [store_comments w post ?st1 k1] =>
        pose proof (store_comments_step post st
                      (processed_post w st subreddit post time text type image)
                      (get post "title" (JStr "")) k1 eq_refl eq_refl Es) as H;
        destruct (store_comments w post st1 k1) as [st2 k2]
    end.
    exact H.
  - by apply (step_title _ _
                (processed_post w st subreddit post time text type image)
                (get post "title" (JStr ""))).
Qed.

Lemma posts_loop_invariant subreddit children st k :
  invariant st → invariant (posts_loop w subreddit children st k).1.2.
Proof.
  revert st k. induction children as [|post_data rest IH]; intros st k Hi.
  - done.
  - cbn [posts_loop]. unfold bind.
    pose proof (process_post_step subreddit post_data st k) as Hstep.
    destruct (process_post w subreddit post_data st k) as [[ok st1] k1].
    simpl in Hstep. apply (step_invariant _ _ Hi) in Hstep.
    destruct ok; simpl; [by apply IH | done].
Qed.

Lemma fetch_subreddit_invariant subreddit st k :
  invariant st → invariant (fetch_subreddit w subreddit st k).1.
Proof.
  intros Hi. unfold fetch_subreddit, bind, http_get.
  destruct (urlopen w k (Listing subreddit) ≫= listing_children)
    as [children|]; [|done].
  pose proof (posts_loop_invariant subreddit children st (S k) Hi) as H.
  by destruct (posts_loop w subreddit children st (S k)) as [[ok st1] k1].
Qed.

Lemma subreddits_loop_invariant subs st k :
  invariant st → invariant (subreddits_loop w subs st k).1.
Proof.
  revert st k. induction subs as [|subreddit rest IH]; intros st k Hi.
  - done.
  - cbn [subreddits_loop]. unfold bind.
    pose proof (fetch_subreddit_invariant subreddit st k Hi) as H.
    destruct (fetch_subreddit w subreddit st k) as [st1 k1].
    by apply IH.
Qed.

Lemma final_state_invariant : invariant (final_state w).
Proof. apply subreddits_loop_invariant, invariant_init. Qed.

(** the document of the run: the accumulators when the summary can be
    written, the fallback otherwise *)
Lemma run_cases :
  let st := final_state w in
  (write_summary (all_posts st) = Some ()
   ∧ posts (run w) = all_posts st ∧ comments (run w) = all_comments st
   ∧ total_posts (run w) = Z.of_nat (length (all_posts st))
   ∧ subreddits_key (run w) = Some subreddits
   ∧ source (run w) = None)
  ∨ (write_summary (all_posts st) = None
     ∧ posts (run w) = create_fallback_posts
     ∧ comments (run w) = create_fallback_comments
     ∧ total_posts (run w) = 3
     ∧ subreddits_key (run w) = None
     ∧ source (run w) = Some (py "fallback")).
Proof.
  unfold run, final_state, fetch_reddit_posts_and_comments, bind, datetime_now.
  destruct (subreddits_loop w subreddits init 0%nat) as [st k]. simpl.
  destruct (write_summary (all_posts st)) as [[]|]; [left | right]; done.
Qed.

End Run.

Section Channels.

Variable w : World.

Implicit Types (st : state) (k : nat) (subreddit : pystr).

Lemma adds_refl subreddit n st : adds subreddit n st st.
Proof.
  exists []. rewrite app_nil_r. split; [done|]. split; [simpl; lia|constructor].
Qed.

Lemma adds_trans subreddit n m st1 st2 st3 :
  adds subreddit n st1 st2 → adds subreddit m st2 st3 →
  adds subreddit (n + m) st1 st3.
Proof.
  intros (new1 & E1 & L1 & F1) (new2 & E2 & L2 & F2).
  exists (new1 ++ new2). rewrite E2, E1, <- app_assoc. split; [done|].
  split; [rewrite length_app; lia | by apply Forall_app].
Qed.

Lemma store_comments_posts post st k :
  all_posts (store_comments w post st k).1 = all_posts st.
Proof.
  unfold store_comments.
  destruct (truthy (get post "id" (JStr "")) &&
            truthy (get post "permalink" (JStr ""))); [|done].
  unfold bind.
  by destruct (fetch_post_comments w (get post "permalink" (JStr "")) k).
Qed.

Lemma process_post_adds subreddit (post_data : json) st k :
  adds subreddit 1 st (process_post w subreddit post_data st k).1.2.
Proof.
  unfold process_post.
  destruct (getitem post_data "data" ≫= as_dict) as [post|];
    [|apply adds_refl].
  destruct (truthy (get post "removed_by_category" JNull)
            || is_str "[deleted]" (get post "title" JNull)); [apply adds_refl|].
  unfold bind.
  destruct (convert_reddit_time w (get post "created_utc" (JNum 0)) k)
    as [time k1].
  destruct (clean_text_of (get post "selftext" (JStr ""))) as [text|];
    [|apply adds_refl].
  destruct (determine_post_type post) as [type|]; [|apply adds_refl].
  destruct (get_image_url post) as [image|]; [|apply adds_refl].
  exists [processed_post w st subreddit post time text type image].
  split; [|split; [done | by constructor]].
  destruct (sliceable (get post "title" (JStr ""))); [|done].
  match goal with
  | |- context [store_comments w post ?st1 k1] =>
      pose proof (store_comments_posts post st1 k1) as H;
      destruct (store_comments w post st1 k1) as [st2 k2]
  end.
  exact H.
Qed.

Lemma posts_loop_adds subreddit children st k :
  adds subreddit (length children) st
    (posts_loop w subreddit children st k).1.2.
Proof.
  revert st k. induction children as [|post_data rest IH]; intros st k.
  - apply adds_refl.
  - cbn [posts_loop]. unfold bind.
    pose proof (process_post_adds subreddit post_data st k) as H1.
    destruct (process_post w subreddit post_data st k) as [[ok st1] k1].
    simpl in H1. destruct ok; simpl.
    + apply (adds_trans _ 1 (length rest) _ _ _ H1), IH.
    + destruct H1 as (new & ? & ? & ?). exists new. repeat split; try done.
      lia.
Qed.

Lemma listing_children_length (data : json) children :
  listing_children data = Some children → (length children ≤ 3)%nat.
Proof.
  unfold listing_children. intros H.
  repeat (simplify_option_eq; try case_match; simpl in *; try lia).
  by eapply slice_iter_length.
Qed.

Lemma fetch_subreddit_adds subreddit st k :
  adds subreddit 3 st (fetch_subreddit w subreddit st k).1.
Proof.
  unfold fetch_subreddit, http_get, bind.
  destruct (urlopen w k (Listing subreddit) ≫= listing_children)
    as [children|] eqn:E; [|apply adds_refl].
  apply bind_Some in E as (data & _ & E). apply listing_children_length in E.
  pose proof (posts_loop_adds subreddit children st (S k)) as H.
  destruct (posts_loop w subreddit children st (S k)) as [[ok st1] k1].
  destruct H as (new & ? & ? & ?). exists new. repeat split; try done.
  simpl in *. lia.
Qed.

(** the channels contribute their items in the order of the list, at most 3
    each *)
Lemma subreddits_loop_blocks subs st k :
  ∃ counts, length counts = length subs
    ∧ Forall (fun c => (c ≤ 3)%nat) counts
    ∧ assoc "subreddit" <$> all_posts (subreddits_loop w subs st k).1 =
      (assoc "subreddit" <$> all_posts st) ++ blocks subs counts.
Proof.
  revert st k. induction subs as [|subreddit rest IH]; intros st k.
  - exists []. simpl. by rewrite app_nil_r.
  - cbn [subreddits_loop]. unfold bind.
    pose proof (fetch_subreddit_adds subreddit st k) as (new & E & L & F).
    destruct (fetch_subreddit w subreddit st k) as [st1 k1]. simpl in E.
    destruct (IH st1 k1) as (counts & Hlen & Hc & Hb).
    exists (length new :: counts). split; [simpl; lia|].
    split; [by constructor|].
    rewrite Hb, E, fmap_app, <- app_assoc. f_equal. simpl. f_equal.
    clear -F. induction F as [|p new Hp _ IHF]; [done|].
    rewrite fmap_cons, Hp, IHF. done.
Qed.

End Channels.

Section Offline.

Variable w : World.

Hypothesis no_listing : ∀ k subreddit, urlopen w k (Listing subreddit) = None.

Lemma subreddits_loop_offline subs st k :
  subreddits_loop w subs st k = (st, (k + length subs)%nat).
Proof.
  revert k. induction subs as [|subreddit rest IH]; intros k.
  - simpl. by rewrite Nat.add_0_r.
  - cbn [subreddits_loop]. unfold fetch_subreddit, http_get, bind.
    rewrite no_listing. cbn [mbind option_bind]. unfold ret.
    rewrite IH. f_equal. simpl. lia.
Qed.

Lemma final_state_offline : final_state w = init.
Proof. unfold final_state. by rewrite subreddits_loop_offline. Qed.

End Offline.

(** C1: what the script does when every channel fetch fails.  Each failure
    is caught by the [except] of its channel, nothing reaches the outer
    [except], and the document written holds no item, no sub-item and no
    [source] key; it is not the fallback dataset. *)
Theorem total_failure_writes_empty_document (w : World) :
  (∀ k subreddit, urlopen w k (Listing subreddit) = None) →
  posts (run w) = []
  ∧ comments (run w) = ∅
  ∧ total_posts (run w) = 0
  ∧ subreddits_key (run w) = Some subreddits
  ∧ source (run w) = None
  ∧ posts (run w) ≠ create_fallback_posts.
Proof.
  intros H. pose proof (run_cases w) as Hr. simpl in Hr.
  rewrite (final_state_offline w H) in Hr. simpl in Hr.
  destruct Hr as [(_ & -> & -> & -> & -> & ->) | (? & _)]; done.
Qed.

Lemma total_failure_writes_empty_document_witness :
  posts (run offline) = []
  ∧ comments (run offline) = ∅
  ∧ total_posts (run offline) = 0
  ∧ subreddits_key (run offline) = Some subreddits
  ∧ source (run offline) = None
  ∧ posts (run offline) ≠ create_fallback_posts.
Proof.
  apply (total_failure_writes_empty_document offline). reflexivity.
Defined.

(** C8.  In the document of every run the sequence ids are 1, 2, ..., n in
    the order of the item list, which is the order in which the items were
    fetched and stored: unique, starting at 1, without gap.  The items stand
    channel by channel in the order of the channel list, at most 3 of each.
    A raw item that is skipped as removed or deleted leaves the accumulators,
    the next id among them, as they are. *)
Theorem sequence_ids (w : World) :
  ids (posts (run w)) = ids_from_1 (length (posts (run w)))
  ∧ NoDup (ids (posts (run w)))
  ∧ total_posts (run w) = Z.of_nat (length (posts (run w)))
  ∧ (∃ counts, length counts = length subreddits
       ∧ Forall (fun c => (c ≤ 3)%nat) counts
       ∧ assoc "subreddit" <$> posts (run w) = blocks subreddits counts)
  ∧ (∀ subreddit post_data post st k,
       getitem post_data "data" ≫= as_dict = Some post →
       truthy (get post "removed_by_category" JNull) = true
       ∨ get post "title" JNull = JStr "[deleted]" →
       process_post w subreddit post_data st k = ((true, st), k)).
Proof.
  assert (ids (posts (run w)) = ids_from_1 (length (posts (run w)))
          ∧ total_posts (run w) = Z.of_nat (length (posts (run w))))
    as [Hids Htotal].
  { pose proof (run_cases w) as Hr. simpl in Hr.
    destruct Hr as [(Hs & -> & _ & -> & _) | (_ & -> & _ & -> & _)];
      [|done].
    split; [|done].
    by destruct (final_state_invariant w) as (_ & _ & H); destruct (H Hs). }
  split; [done|]. split; [|split; [done|split]].
  - rewrite Hids. unfold ids_from_1. apply NoDup_fmap_2; [|apply NoDup_seqZ].
    by intros i j [= ->].
  - pose proof (run_cases w) as Hr. simpl in Hr.
    destruct Hr as [(_ & -> & _) | (_ & -> & _)].
    + apply (subreddits_loop_blocks w subreddits init 0%nat).
    + exists ([1; 0; 0; 0; 0; 1; 0; 1] ++ replicate 17 0)%nat.
      split; [done|]. split; [|done].
      repeat (constructor; [lia|]). constructor.
  - intros subreddit post_data post st k Hp Hskip. unfold process_post.
    rewrite Hp. destruct Hskip as [-> | ->]; [done|].
    by rewrite orb_true_r.
Qed.

(** C10.  The mapping of the document never holds an empty list.  In the
    document of a run that did not fall back, the entry of a sequence id is
    the list that the comment fetch made for the item of that id returned,
    when that list is not empty, and there is no entry otherwise: none for
    an item whose fetch returned the empty list, as it does when the request
    fails, and none for an item for which no fetch was made.  ([fetch_log]
    holds, by [store_comments], the id and the returned list of every
    fetch.) *)
Theorem comments_entry_iff_fetched (w : World) :
  let st := final_state w in
  (∀ i l, comments (run w) !! i = Some l → l ≠ [])
  ∧ (source (run w) = None →
     posts (run w) = all_posts st
     ∧ NoDup (ids (posts (run w)))
     ∧ NoDup (fetch_log st).*1
     ∧ (∀ i l, (i, l) ∈ fetch_log st →
          ∃ p, p ∈ posts (run w) ∧ assoc "id" p = Some (JNum i))
     ∧ (∀ i l, comments (run w) !! i = Some l ↔
               (i, l) ∈ fetch_log st ∧ l ≠ [])
     ∧ (∀ i, (∀ l, (i, l) ∈ fetch_log st → l = []) →
          comments (run w) !! i = None))
  ∧ (∀ permalink k,
       urlopen w k (CommentsOf permalink) = None →
       (fetch_post_comments w permalink k).1 = []).
Proof.
  intros st. pose proof (run_cases w) as Hr. simpl in Hr. fold st in Hr.
  destruct (final_state_invariant w) as (Hc & Hl & Hs). fold st in Hc, Hl, Hs.
  split; [|split].
  - intros i l H.
    destruct Hr as [(_ & _ & E & _) | (_ & _ & E & _)]; rewrite E in H.
    + by destruct (Hc i l H).
    + unfold create_fallback_comments in H.
      repeat (apply lookup_insert_Some in H as [[_ <-] | [_ H]]; [done|]).
      by rewrite lookup_empty in H.
  - intros Hsrc.
    destruct Hr as [(Hok & Ep & Ec & _) | (_ & _ & _ & _ & _ & E)];
      [|congruence].
    destruct (Hs Hok) as (Hids & _ & _ & Hnd & Hlook).
    rewrite Ep, Ec. split; [done|]. split; [|split; [done|]].
    { rewrite Hids. unfold ids_from_1.
      apply NoDup_fmap_2; [|apply NoDup_seqZ]. by intros i j [= ->]. }
    split; [exact Hl|].
    assert (∀ i l, all_comments st !! i = Some l ↔
                   (i, l) ∈ fetch_log st ∧ l ≠ []) as Hiff.
    { intros i l. split.
      - intros H. destruct (Hc i l H). done.
      - intros [? ?]. by apply Hlook. }
    split; [done|].
    intros i Hnone. destruct (all_comments st !! i) as [l|] eqn:E; [|done].
    apply Hiff in E as [Hin Hne]. by apply Hnone in Hin.
  - intros permalink k H. rewrite fetch_post_comments_result. by rewrite H.
Qed.

Lemma comments_entry_iff_fetched_witness :
  (∃ l, (1, l) ∈ fetch_log (final_state six_comments_world) ∧ l ≠ [])
  ∧ comments (run six_comments_world) !! 2 = None.
Proof.
  destruct (comments_entry_iff_fetched six_comments_world) as (_ & H & _).
  destruct (H eq_refl) as (_ & _ & _ & _ & Hiff & Hnone).
  split.
  - eexists. apply Hiff. vm_compute. reflexivity.
  - apply Hnone. intros l Hin.
    remember (fetch_log (final_state six_comments_world)) as log eqn:E.
    vm_compute in E. subst log.
    apply list_elem_of_singleton in Hin. discriminate.
Defined.

Lemma sequence_ids_witness :
  ids (posts (run six_comments_world)) = [Some (JNum 1); Some (JNum 2)].
Proof.
  rewrite (proj1 (sequence_ids six_comments_world)). reflexivity.
Defined.

(** a title that cannot be sliced: the id is not passed, and the summary
    cannot be written, so that the run falls back *)
Example null_title_falls_back :
  let net := fun (_ : nat) r =>
    match r with
    | Listing _ =>
        Some (post_listing
                [JObj [("data", JObj [("title", JNull)])]%string])
    | CommentsOf _ => None
    end in
  ids (all_posts (final_state (sample_world net))) =
    replicate 25 (Some (JNum 1))
  ∧ source (run (sample_world net)) = Some (py "fallback")
  ∧ ids (posts (run (sample_world net))) = ids_from_1 3.
Proof. vm_compute. repeat split; reflexivity. Qed.

(** * Further properties of the fetcher *)

(** ** Sub-items *)

Section SubItems.

Variable w : World.

Implicit Types (child : json) (rest children : list json)
  (acc : list dict) (k : nat).

#[local] Arguments py : simpl never.

Lemma max_1_at_least_one (j ups : json) :
  max_1 j = Some ups → at_least_one ups.
Proof.
  destruct j as [|[]|n| | |]; simpl; try done; intros [= <-].
  - by left.
  - right. exists 1. split; [done | lia].
  - right. exists (Z.max n 1). split; [done | lia].
Qed.

Lemma unit_of_convert (ts : json) k :
  is_Some (unit_of (convert_reddit_time w ts k).1).
Proof.
  destruct (truthy ts) eqn:Ht.
  - destruct (as_number ts ≫= fromtimestamp w) as [p|] eqn:E.
    + rewrite (convert_converted _ _ _ _ Ht E), unit_of_relative_time. eauto.
    + rewrite convert_failed, unit_of_hours by done. eauto.
  - rewrite convert_falsy, unit_of_hours by done. eauto.
Qed.

Lemma length_clean_comment_text text :
  (length (clean_comment_text text) ≤ 303)%nat.
Proof.
  rewrite clean_comment_text_eq.
  destruct (bool_decide (text = []) || is_marker text); [simpl; lia|].
  apply (length_truncate 300).
Qed.

Ltac kept_child child comment body Eb :=
  unfold raises, survives, comment_of; cbn [comments_loop];
  destruct (getitem child "kind") as [kind|];
    cbn [mbind option_bind]; [|done];
  destruct (is_str "t1" kind); [|done];
  destruct (getitem child "data" ≫= as_dict) as [comment|]; [|done];
  destruct (get comment "body" JNull) as [| [] | n | body | [] | [] ] eqn:Eb;
    cbn [is_str truthy orb clean_comment_text_of negb];
    try done.

Lemma loop_keeps_wf child rest acc k :
  raises child = false → survives child = true →
  ∃ c k', wf_comment c
          ∧ comments_loop w (child :: rest) acc k =
            comments_loop w rest (acc ++ [c]) k'.
Proof.
  kept_child child comment body Eb.
  rewrite clean_comment_text_of_str, orb_false_r. fold (is_marker body).
  intros Hr H. rewrite H in Hr.
  apply andb_true_iff in H as [Hm Hlen].
  apply negb_true_iff in Hm. rewrite Hm, Hlen.
  apply bool_decide_eq_false in Hr.
  destruct (max_1 (get comment "ups" (JNum 0))) as [ups|] eqn:Eu; [|done].
  unfold bind.
  pose proof (unit_of_convert (get comment "created_utc" (JNum 0)) k) as Ht.
  destruct (convert_reddit_time w (get comment "created_utc" (JNum 0)) k)
    as [time k'].
  exists (processed_comment comment (clean_comment_text body) ups time), k'.
  split; [|done]. split; [done|]. split; [|split].
  - exists (clean_comment_text body). split; [done|]. split.
    + split; [by apply Nat.ltb_lt | apply length_clean_comment_text].
    + apply clean_comment_text_no_asterisk.
  - exists ups. split; [done|]. by eapply max_1_at_least_one.
  - by exists time.
Qed.

Lemma comments_loop_wf children acc k :
  Forall wf_comment acc →
  Forall wf_comment (default [] (comments_loop w children acc k).1).
Proof.
  revert acc k. induction children as [|child rest IH]; intros acc k Hacc.
  - done.
  - destruct (raises child) eqn:Hr.
    { rewrite loop_raises by done. constructor. }
    destruct (survives child) eqn:Hs.
    + destruct (loop_keeps_wf child rest acc k Hr Hs) as (c & k' & Hc & ->).
      apply IH. apply Forall_app. split; [done | by constructor].
    + rewrite loop_skips by done. by apply IH.
Qed.

Lemma fetch_post_comments_wf permalink k :
  Forall wf_comment (fetch_post_comments w permalink k).1.
Proof.
  rewrite fetch_post_comments_result.
  destruct (urlopen w k (CommentsOf permalink) ≫= comment_children)
    as [children|]; [|constructor].
  apply comments_loop_wf. constructor.
Qed.

Lemma fetch_post_comments_length permalink k :
  (length (fetch_post_comments w permalink k).1 ≤ 5)%nat.
Proof.
  rewrite fetch_post_comments_result.
  destruct (urlopen w k (CommentsOf permalink) ≫= comment_children)
    as [children|] eqn:E; [|simpl; lia].
  apply bind_Some in E as (data & _ & E).
  apply comment_children_length in E.
  pose proof (comments_loop_spec w children [] (S k)) as H.
  destruct (comments_loop w children [] (S k)).1 as [cs|]; [|simpl; lia].
  destruct H as (_ & new & -> & Hn & _). simpl.
  apply (f_equal length) in Hn. rewrite !length_fmap in Hn. rewrite Hn.
  etrans; [apply length_filter | done].
Qed.

End SubItems.

(** X1.  Every sub-item that [fetch_post_comments] returns has at least one
    upvote: its [upvotes] is a number not below 1 (or [True]), whatever
    [ups] the API gave. *)
Theorem subitem_upvotes_floor (w : World) (permalink : json) (k : nat) :
  Forall (fun c => ∃ ups, assoc "upvotes" c = Some ups ∧ at_least_one ups)
    (fetch_post_comments w permalink k).1.
Proof.
  eapply Forall_impl; [apply fetch_post_comments_wf|].
  by intros c (_ & _ & H & _).
Qed.

(** X2.  Every sub-item that [fetch_post_comments] returns has the keys
    author, text, upvotes, time, reddit_id, in this order; its text has 11
    to 303 characters and no asterisk; its time is a relative time. *)
Theorem subitem_shape (w : World) (permalink : json) (k : nat) :
  Forall (fun c =>
            c.*1 = ["author"; "text"; "upvotes"; "time"; "reddit_id"]%string
            ∧ (∃ text, assoc "text" c = Some (JStr text)
                       ∧ (10 < length text ≤ 303)%nat ∧ "*"%char ∉ text)
            ∧ (∃ time, assoc "time" c = Some (JStr time)
                       ∧ is_Some (unit_of time)))
    (fetch_post_comments w permalink k).1.
Proof.
  eapply Forall_impl; [apply fetch_post_comments_wf|].
  by intros c (? & ? & _ & ?).
Qed.

Section ListingShape.

Implicit Types (data : json) (children : list json).

Lemma raises_str_children (s : pystr) n :
  take n s ≠ [] →
  existsb raises ((fun c => JStr [c]) <$> take n s) = true.
Proof. destruct (take n s); [done|]. by intros _. Qed.

Lemma slice_iter_dicts n (j : json) children :
  slice_iter n j = Some children → children ≠ [] →
  existsb raises children = false →
  ∃ raw, j = JArr raw ∧ children = take n raw.
Proof.
  destruct j as [| | |s|raw|]; simpl; try done; intros [= <-] Hne Hr.
  - rewrite raises_str_children in Hr; [done|].
    intros E. by rewrite E in Hne.
  - by exists raw.
Qed.

Lemma comment_children_shape data children :
  comment_children data = Some children → children ≠ [] →
  existsb raises children = false →
  ∃ listing second inner raw,
    data = JArr listing ∧ listing !! 1%nat = Some second
    ∧ getitem second "data" = Some inner
    ∧ getitem inner "children" = Some (JArr raw)
    ∧ children = take 5 raw.
Proof.
  unfold comment_children. intros H Hne Hr.
  destruct (len data) as [n|] eqn:En; [|done]. cbn [mbind option_bind] in H.
  destruct (2 <=? n)%nat; [|by injection H as <-].
  destruct (index data 1) as [second|] eqn:E1; [|done].
  cbn [mbind option_bind] in H.
  destruct (contains "data" second) as [[]|]; cbn [mbind option_bind] in H;
    [|by injection H as <- | done].
  destruct (getitem second "data") as [inner|] eqn:Ed; [|done].
  cbn [mbind option_bind] in H.
  destruct (contains "children" inner) as [[]|]; cbn [mbind option_bind] in H;
    [|by injection H as <- | done].
  destruct (getitem inner "children") as [cs|] eqn:Ec; [|done].
  cbn [mbind option_bind] in H.
  destruct (slice_iter_dicts _ _ _ H Hne Hr) as (raw & -> & ->).
  destruct data as [| | |s|listing|]; try done.
  - simpl in E1. destruct (s !! 1%nat); [|done].
    injection E1 as <-. done.
  - by exists listing, second, inner, raw.
Qed.

End ListingShape.

(** X3.  [fetch_post_comments] returns sub-items only for a response of the
    documented shape: a list whose second element has, under [data], a list
    as [children], of whose first 5 elements none makes the loop raise and
    one at least survives.  For every other response, as for a failed
    request, the result is the empty list. *)
Theorem subitems_need_listing (w : World) (permalink : json) (k : nat) :
  (fetch_post_comments w permalink k).1 ≠ [] →
  ∃ listing second inner raw,
    urlopen w k (CommentsOf permalink) = Some (JArr listing)
    ∧ listing !! 1%nat = Some second
    ∧ getitem second "data" = Some inner
    ∧ getitem inner "children" = Some (JArr raw)
    ∧ existsb raises (take 5 raw) = false
    ∧ ∃ child, child ∈ take 5 raw ∧ survives child = true.
Proof.
  rewrite fetch_post_comments_result.
  destruct (urlopen w k (CommentsOf permalink)) as [data|]; [|done].
  cbn [mbind option_bind].
  destruct (comment_children data) as [children|] eqn:Ec; [|done].
  pose proof (comments_loop_spec w children [] (S k)) as H.
  destruct (comments_loop w children [] (S k)).1 as [cs|]; [|done].
  destruct H as (Hr & new & -> & Hn & _). simpl. intros Hne.
  assert (filter survives children ≠ []) as Hf.
  { intros E. rewrite E in Hn. by destruct new. }
  assert (children ≠ []) as Hc by (by intros ->).
  destruct (comment_children_shape _ _ Ec Hc Hr)
    as (listing & second & inner & raw & -> & H1 & Hd & Hch & ->).
  exists listing, second, inner, raw. repeat (split; [done|]).
  destruct (filter survives (take 5 raw)) as [|child l] eqn:E; [done|].
  exists child.
  assert (child ∈ filter survives (take 5 raw)) as Hin by (rewrite E; left).
  apply list_elem_of_filter in Hin as [Hs Hin]. split; [done|].
  by apply Is_true_true.
Qed.

Lemma subitems_need_listing_witness :
  ∃ listing second inner raw,
    urlopen six_comments_world 0 (CommentsOf (JStr "/r/x/1")) =
      Some (JArr listing)
    ∧ listing !! 1%nat = Some second
    ∧ getitem second "data" = Some inner
    ∧ getitem inner "children" = Some (JArr raw)
    ∧ existsb raises (take 5 raw) = false
    ∧ ∃ child, child ∈ take 5 raw ∧ survives child = true.
Proof.
  apply (subitems_need_listing six_comments_world (JStr "/r/x/1") 0%nat).
  vm_compute. discriminate.
Defined.

(** ** Post type and image, continued *)

(** X4.  An item classified ['image'] always carries its image: its URL is a
    string, and [get_image_url] returns that URL. *)
Theorem image_post_has_image (post : dict) :
  determine_post_type post = Some (py "image") →
  ∃ u, get post "url" (JStr "") = JStr u
       ∧ has_image_ext u = true
       ∧ get_image_url post = Some (JStr u).
Proof.
  unfold determine_post_type, get_image_url.
  destruct (truthy (get post "selftext" (JStr ""))); [discriminate|].
  destruct (get post "url" (JStr "")) as [| | |u| |]; try discriminate.
  destruct (has_image_ext u) eqn:E.
  - intros _. by exists u.
  - destruct (_ && _); discriminate.
Qed.

Lemma image_post_has_image_witness :
  ∃ u, get [("url", JStr "http://x.com/Cat.JPG?w=1")]%string "url" (JStr "") =
         JStr u
       ∧ has_image_ext u = true
       ∧ get_image_url [("url", JStr "http://x.com/Cat.JPG?w=1")]%string =
         Some (JStr u).
Proof.
  apply (image_post_has_image [("url", JStr "http://x.com/Cat.JPG?w=1")]%string).
  reflexivity.
Defined.

(** X5.  [get_image_url] raises exactly when the URL is no string, or when
    the URL holds no image suffix and the post has a [preview] that is null,
    a boolean or a number (the test ['images' in post['preview']] stands
    outside the [try]).  In every other case it returns null or a string;
    for a preview of the expected shape that string is the URL of the first
    image's source with [&amp;] replaced by [&], and a preview dict without
    [images] gives null. *)
Theorem get_image_url_cases (post : dict) :
  (get_image_url post = None ↔
   (∀ u, get post "url" (JStr "") ≠ JStr u)
   ∨ ∃ u preview,
       get post "url" (JStr "") = JStr u ∧ has_image_ext u = false
       ∧ assoc "preview" post = Some preview
       ∧ match preview with JNull | JBool _ | JNum _ => True | _ => False end)
  ∧ (∀ image, get_image_url post = Some image →
       image = JNull ∨ ∃ s, image = JStr s)
  ∧ (∀ u pm first rest sm s,
       get post "url" (JStr "") = JStr u → has_image_ext u = false →
       assoc "preview" post = Some (JObj pm) →
       assoc "images" pm = Some (JArr (first :: rest)) →
       getitem first "source" = Some (JObj sm) →
       assoc "url" sm = Some (JStr s) →
       get_image_url post = Some (JStr (replace "&amp;" "&" s)))
  ∧ (∀ u pm,
       get post "url" (JStr "") = JStr u → has_image_ext u = false →
       assoc "preview" post = Some (JObj pm) → assoc "images" pm = None →
       get_image_url post = Some JNull).
Proof.
  unfold get_image_url. split; [|split; [|split]].
  - destruct (get post "url" (JStr "")) as [| | |u| |] eqn:Eu;
      try (split; [intros _; by left | done]).
    destruct (has_image_ext u) eqn:Ee.
    { split; [done|]. intros [H|(u' & pv & [= <-] & ? & _)]; [|congruence].
      by destruct (H u). }
    destruct (assoc "preview" post) as [preview|] eqn:Ep.
    + split.
      * intros H. right. exists u, preview. repeat (split; [done|]).
        destruct preview as [| | |t|l|m]; simpl in H; try done;
          by repeat case_match.
      * intros [H|(u' & pv & _ & _ & [= <-] & Hp)]; [by destruct (H u)|].
        by destruct preview.
    + split; [done|].
      intros [H|(u' & pv & _ & _ & ? & _)]; [by destruct (H u) | done].
  - intros image.
    destruct (get post "url" (JStr "")) as [| | |u| |]; try done.
    destruct (has_image_ext u); [intros [= <-]; eauto|].
    destruct (assoc "preview" post) as [preview|]; [|intros [= <-]; by left].
    destruct (contains "images" preview) as [[]|]; cbn [mbind option_bind];
      try done; [|intros [= <-]; by left].
    destruct (preview_source_url post); intros [= <-]; eauto.
  - intros u pm first rest sm s -> -> Hp Hi Hs Hu.
    unfold preview_source_url. rewrite Hp. cbn [mbind option_bind contains].
    rewrite bool_decide_eq_true_2 by (by rewrite Hi).
    cbn [getitem]. rewrite Hi. cbn [mbind option_bind index].
    cbn [lookup list_lookup]. cbn [mbind option_bind]. rewrite Hs.
    cbn [mbind option_bind getitem]. by rewrite Hu.
  - intros u pm -> -> Hp Hi. rewrite Hp. cbn [mbind option_bind contains].
    rewrite bool_decide_eq_false_2; [done|]. rewrite Hi. by intros [? ?].
Qed.

Lemma get_image_url_cases_witness :
  get_image_url preview_post =
  Some (JStr "https://img.example.com/a?x=1&y=2").
Proof.
  destruct (get_image_url_cases preview_post) as (_ & _ & H & _).
  rewrite (H _ _ _ _ _ _ eq_refl eq_refl eq_refl eq_refl eq_refl eq_refl).
  reflexivity.
Defined.

(** ** Relative time, continued *)

Section Numbers.

Implicit Types (d : Z).

Lemma td_seconds_range d : 0 ≤ td_seconds d < 86400.
Proof. unfold td_seconds. Z.div_mod_to_equations. lia. Qed.

Lemma relative_time_numbers d :
  (∃ N, 1 ≤ N ∧ relative_time d = str_of_Z N ++ " days ago")
  ∨ (∃ N, 1 ≤ N ≤ 23 ∧ relative_time d = str_of_Z N ++ " hours ago")
  ∨ (∃ N, 1 ≤ N ≤ 60 ∧ relative_time d = str_of_Z N ++ " minutes ago")
  ∨ relative_time d = "just now".
Proof.
  unfold relative_time. pose proof (td_seconds_range d) as Hs.
  destruct (Z.ltb_spec 0 (td_days d)).
  { left. exists (td_days d). split; [lia | done]. }
  destruct (Z.ltb_spec 3600 (td_seconds d)).
  { right. left. exists (td_seconds d / 3600). split; [|done].
    Z.div_mod_to_equations. lia. }
  destruct (Z.ltb_spec 60 (td_seconds d)).
  { right. right. left. exists (td_seconds d / 60). split; [|done].
    Z.div_mod_to_equations. lia. }
  by repeat right.
Qed.

(** below one day, a negative difference too, only the time of day counts *)
Lemma relative_time_wraps d :
  d < 86400000000 → relative_time d = relative_time (d mod 86400000000).
Proof.
  intros H. unfold relative_time.
  assert (td_seconds (d mod 86400000000) = td_seconds d) as ->.
  { unfold td_seconds. by rewrite Z.mod_mod. }
  assert (td_days (d mod 86400000000) = 0) as ->.
  { unfold td_days. Z.div_mod_to_equations. lia. }
  destruct (Z.ltb_spec 0 (td_days d)) as [Hp|_]; [|done].
  apply td_days_pos in Hp. lia.
Qed.

End Numbers.

(** X6.  Whatever the argument, the number that [convert_reddit_time] prints
    is at least 1 for days, between 1 and 23 for hours and between 1 and 60
    for minutes. *)
Theorem convert_reddit_time_numbers (w : World) (ts : json) (k : nat) :
  let out := (convert_reddit_time w ts k).1 in
  (∃ N, 1 ≤ N ∧ out = str_of_Z N ++ " days ago")
  ∨ (∃ N, 1 ≤ N ≤ 23 ∧ out = str_of_Z N ++ " hours ago")
  ∨ (∃ N, 1 ≤ N ≤ 60 ∧ out = str_of_Z N ++ " minutes ago")
  ∨ out = "just now".
Proof.
  intros out. subst out. destruct (truthy ts) eqn:Ht.
  - destruct (as_number ts ≫= fromtimestamp w) as [p|] eqn:E.
    + rewrite (convert_converted _ _ _ _ Ht E). apply relative_time_numbers.
    + rewrite convert_failed by done. right. left. eexists. split; [|done].
      pose proof (randint_range w 1 12 k). lia.
  - rewrite convert_falsy by done. right. left. eexists. split; [|done].
    pose proof (randint_range w 1 6 k). lia.
Qed.

(** X7.  A timestamp in the future is never reported in days: the result is
    the one of the elapsed time taken modulo one day (one second ahead reads
    as 23 hours ago). *)
Theorem future_timestamp_wraps (w : World) (ts : json) (k : nat)
    (post_time : Z) :
  truthy ts = true →
  as_number ts ≫= fromtimestamp w = Some post_time →
  clock w k < post_time →
  (convert_reddit_time w ts k).1 =
    relative_time ((clock w k - post_time) mod 86400000000)
  ∧ unit_of (convert_reddit_time w ts k).1 ≠ Some 3%nat.
Proof.
  intros Ht E Hlt. rewrite (convert_converted _ _ _ _ Ht E).
  split; [apply relative_time_wraps; lia|].
  rewrite unit_of_relative_time. unfold unit_rank.
  destruct (Z.ltb_spec 0 (td_days (clock w k - post_time))) as [Hp|_].
  - apply td_days_pos in Hp. lia.
  - by repeat case_match.
Qed.

Lemma future_timestamp_wraps_witness :
  (convert_reddit_time offline (JNum 1700000001) 0%nat).1 = "23 hours ago".
Proof.
  rewrite (proj1 (future_timestamp_wraps offline (JNum 1700000001) 0%nat
                    1700000001000000 eq_refl eq_refl ltac:(cbn; lia))).
  reflexivity.
Defined.

(** ** Text cleaning, continued *)

Section Spacing.

Implicit Types (s u v w : pystr) (c : ascii).

#[local] Arguments Ascii.eqb : simpl never.
#[local] Arguments is_space : simpl never.

Lemma str_in_app_l p u t : str_in p u = true → str_in p (u ++ t) = true.
Proof.
  intros H. apply str_in_spec in H as (a & b & ->).
  apply str_in_spec. exists a, (b ++ t). by rewrite <- !app_assoc.
Qed.

Lemma str_in_2sp_dots u : str_in "  " (u ++ "...") = str_in "  " u.
Proof.
  induction u as [|c u IH]; [done|].
  change ((c :: u) ++ py "...") with (c :: (u ++ py "...")).
  rewrite !str_in_cons, IH. f_equal.
  by destruct u.
Qed.

Lemma single_spaced_nil : single_spaced [].
Proof.
  split; [|done]. intros c H. by apply elem_of_nil in H.
Qed.

Lemma single_spaced_truncate n v :
  single_spaced v → single_spaced (truncate n v).
Proof.
  intros (Hc & Hh & Hl & Hd). unfold truncate.
  destruct (n <? length v)%nat; [|done].
  split; [|split; [|split]].
  - intros c Hin Hsp. apply elem_of_app in Hin as [Hin|Hin].
    + apply Hc; [|done]. rewrite <- (take_drop n v).
      apply elem_of_app. by left.
    + repeat (apply elem_of_cons in Hin as [->|Hin]; [done|]).
      by apply elem_of_nil in Hin.
  - destruct (take n v) as [|a t] eqn:E; [done|].
    rewrite <- (take_drop n v), E in Hh. done.
  - change (py "...") with (["."%char; "."%char] ++ ["."%char]).
    by rewrite app_assoc, last_snoc.
  - rewrite str_in_2sp_dots.
    destruct (str_in "  " (take n v)) eqn:E; [|done].
    apply (str_in_app_l _ _ (drop n v)) in E.
    rewrite take_drop in E. congruence.
Qed.

Lemma join_split_from w s :
  no_space w →
  (∀ c, c ∈ s → is_space c = true → c = " "%char) →
  str_in "  " s = false →
  last s ≠ Some " "%char →
  (head s = Some " "%char → w ≠ []) →
  join " " (split_from w s) = w ++ s.
Proof.
  revert w. induction s as [|c s IH]; intros w Hw Hc Hd Hl Hh.
  - simpl. rewrite app_nil_r. by destruct w.
  - rewrite str_in_cons in Hd. apply orb_false_iff in Hd as [Hst Hd].
    assert (∀ a, a ∈ s → is_space a = true → a = " "%char) as Hc'.
    { intros a Ha. apply Hc. by right. }
    assert (last s ≠ Some " "%char) as Hl'.
    { destruct s as [|a s]; [done|]. by rewrite last_cons_cons in Hl. }
    cbn [split_from]. destruct (is_space c) eqn:Hsp.
    + assert (c = " "%char) as -> by (apply Hc; [left | done]).
      assert (w ≠ []) as Hne by (by apply Hh).
      assert (head s ≠ Some " "%char) as Hh'.
      { destruct s as [|a s]; [done|]. simpl. intros [= ->].
        change (" "%char :: " "%char :: s) with (py "  " ++ s) in Hst.
        by rewrite startswith_app in Hst. }
      specialize (IH [] ltac:(constructor) Hc' Hd Hl'
                    ltac:(intros ?; contradiction)).
      change ([] ++ s) with s in IH.
      destruct w as [|b w]; [done|].
      destruct (split_from [] s) as [|x xs] eqn:E.
      * change (join " " []) with (@nil ascii) in IH. subst s. done.
      * change (join " " ((b :: w) :: x :: xs))
          with ((b :: w) ++ " " ++ join " " (x :: xs)).
        by rewrite IH.
    + rewrite IH; try done.
      * by rewrite <- app_assoc.
      * apply Forall_app. split; [done|]. by constructor.
      * intros _. by destruct w.
Qed.

(** a single-spaced text is collapsed already *)
Lemma single_spaced_collapse s : single_spaced s → collapse s = s.
Proof.
  intros (Hc & Hh & Hl & Hd). unfold collapse, split.
  apply (join_split_from [] s); try done. constructor.
Qed.

Lemma truncate_idem n v : truncate n (truncate n v) = truncate n v.
Proof.
  destruct (Nat.lt_ge_cases n (length v)) as [Hlt|Hge].
  - rewrite (truncate_long n v) by done.
    rewrite truncate_long by (rewrite length_app, length_take; simpl; lia).
    by rewrite take_app_length' by (rewrite length_take; lia).
  - rewrite (truncate_short n v) by done. by apply truncate_short.
Qed.

Lemma clean_text_single_spaced text : single_spaced (clean_text text).
Proof.
  rewrite clean_text_eq.
  destruct (bool_decide (text = []) || is_marker text);
    [apply single_spaced_nil|].
  apply single_spaced_truncate, collapse_single_spaced.
Qed.

Lemma clean_comment_text_single_spaced text :
  single_spaced (clean_comment_text text).
Proof.
  rewrite clean_comment_text_eq.
  destruct (bool_decide (text = []) || is_marker text);
    [apply single_spaced_nil|].
  apply single_spaced_truncate, collapse_single_spaced.
Qed.

Lemma truncate_clean_text text :
  truncate 500 (clean_text text) = clean_text text.
Proof.
  destruct (clean_text_output text) as [-> | ->];
    [done | apply truncate_idem].
Qed.

Lemma truncate_clean_comment_text text :
  truncate 300 (clean_comment_text text) = clean_comment_text text.
Proof.
  destruct (clean_comment_text_output text) as [-> | ->];
    [done | apply truncate_idem].
Qed.

End Spacing.

(** X8.  The output of either cleaner, truncated or not, has single spaces
    only: no white-space character other than the space, no space at its
    start or at its end, no two spaces in a row. *)
Theorem cleaned_single_spaced (text : pystr) :
  single_spaced (clean_text text) ∧ single_spaced (clean_comment_text text).
Proof.
  split; [apply clean_text_single_spaced|apply clean_comment_text_single_spaced].
Qed.

(** X9.  Cleaning an output of [clean_text] again, of any length, returns it
    unchanged, unless that output is a deletion marker, which becomes the
    empty string.  The same holds for an output of [clean_comment_text] that
    holds none of the encoded entities. *)
Theorem cleaning_again (y : pystr) :
  (let x := clean_text y in
   clean_text x = if is_marker x then [] else x)
  ∧ (let x := clean_comment_text y in
     str_in "&gt;" x = false → str_in "&lt;" x = false →
     str_in "&amp;" x = false →
     clean_comment_text x = if is_marker x then [] else x).
Proof.
  split.
  - intros x. rewrite clean_text_eq.
    rewrite (single_spaced_collapse x) by apply clean_text_single_spaced.
    unfold x at 4. rewrite truncate_clean_text. fold x.
    destruct (bool_decide (x = [])) eqn:E; [|done].
    apply bool_decide_eq_true in E. by rewrite E.
  - intros x Hgt Hlt Hamp. rewrite clean_comment_text_eq.
    rewrite (remove_markdown_absent x)
      by (done || apply clean_comment_text_no_asterisk).
    rewrite (single_spaced_collapse x)
      by apply clean_comment_text_single_spaced.
    unfold x at 4. rewrite truncate_clean_comment_text. fold x.
    destruct (bool_decide (x = [])) eqn:E; [|done].
    apply bool_decide_eq_true in E. by rewrite E.
Qed.

Lemma cleaning_again_witness :
  clean_comment_text (clean_comment_text "a  *b*  &lt; c") =
  clean_comment_text "a  *b*  &lt; c".
Proof.
  exact (proj2 (cleaning_again "a  *b*  &lt; c") eq_refl eq_refl eq_refl).
Defined.

(** X10.  On a text without asterisk and without encoded entity the two
    cleaners differ by their caps only: when the collapsed text has at most
    300 characters, [clean_comment_text] and [clean_text] return the same. *)
Theorem cleaners_agree (text : pystr) :
  "*"%char ∉ text →
  str_in "&gt;" text = false → str_in "&lt;" text = false →
  str_in "&amp;" text = false →
  clean_comment_text text =
    (if bool_decide (text = []) || is_marker text then []
     else truncate 300 (collapse text))
  ∧ ((length (collapse text) ≤ 300)%nat →
     clean_comment_text text = clean_text text).
Proof.
  intros Hs Hgt Hlt Hamp.
  rewrite clean_comment_text_eq, clean_text_eq, remove_markdown_absent by done.
  split; [done|]. intros Hlen.
  destruct (bool_decide (text = []) || is_marker text); [done|].
  rewrite !truncate_short; done || lia.
Qed.

Lemma cleaners_agree_witness :
  clean_comment_text "plain   words,
 on two lines" =
  clean_text "plain   words,
 on two lines".
Proof.
  apply (cleaners_agree "plain   words,
 on two lines"); try reflexivity.
  - vm_compute. intros H. repeat (apply elem_of_cons in H as [H|H];
      [discriminate|]). by apply elem_of_nil in H.
  - vm_compute. lia.
Defined.

(** ** The run, continued *)

Section Passes.

Variable w : World.

Implicit Types (st : state) (k : nat) (subreddit : pystr).

Lemma process_post_pass subreddit (post_data : json) st k :
  pass w subreddit st (process_post w subreddit post_data st k).1.2.
Proof.
  unfold process_post.
  destruct (getitem post_data "data" ≫= as_dict) as [post|];
    [|by apply pass_none].
  destruct (truthy (get post "removed_by_category" JNull)
            || is_str "[deleted]" (get post "title" JNull)) eqn:Eskip;
    [by apply pass_none|].
  unfold bind.
  destruct (convert_reddit_time w (get post "created_utc" (JNum 0)) k)
    as [time k1] eqn:Et.
  destruct (clean_text_of (get post "selftext" (JStr ""))) as [text|] eqn:Ex;
    [|by apply pass_none].
  destruct (determine_post_type post) as [type|] eqn:Ey;
    [|by apply pass_none].
  destruct (get_image_url post) as [image|] eqn:Ei; [|by apply pass_none].
  assert (stored_as w subreddit st post
            (processed_post w st subreddit post time text type image)) as Hp.
  { exists text, type, image, k. by rewrite Et. }
  destruct (sliceable (get post "title" (JStr ""))) eqn:Es.
  - unfold store_comments. cbn [post_id_counter all_posts all_comments fetch_log].
    destruct (truthy (get post "id" (JStr "")) &&
              truthy (get post "permalink" (JStr ""))) eqn:Eid.
    + unfold bind.
      destruct (fetch_post_comments w (get post "permalink" (JStr "")) k1)
        as [cs k2] eqn:Ef.
      eapply (pass_fetched _ _ _ _ post _ k1 cs); try done.
      by rewrite Ef.
    + by eapply pass_quiet.
  - by eapply pass_title.
Qed.

Section Lift.

Variable R : state → state → Prop.
Variable subs : list pystr.

Hypothesis R_refl : ∀ st, R st st.
Hypothesis R_trans : ∀ st1 st2 st3, R st1 st2 → R st2 st3 → R st1 st3.
Hypothesis R_pass :
  ∀ subreddit st st', subreddit ∈ subs → pass w subreddit st st' → R st st'.

Lemma posts_loop_lift subreddit children st k :
  subreddit ∈ subs → R st (posts_loop w subreddit children st k).1.2.
Proof.
  intros Hin. revert st k.
  induction children as [|post_data rest IH]; intros st k.
  - apply R_refl.
  - cbn [posts_loop]. unfold bind.
    pose proof (process_post_pass subreddit post_data st k) as Hp.
    destruct (process_post w subreddit post_data st k) as [[ok st1] k1].
    simpl in Hp. apply (R_pass _ _ _ Hin) in Hp.
    destruct ok; simpl; [|done].
    eapply R_trans; [exact Hp | apply IH].
Qed.

Lemma fetch_subreddit_lift subreddit st k :
  subreddit ∈ subs → R st (fetch_subreddit w subreddit st k).1.
Proof.
  intros Hin. unfold fetch_subreddit, http_get, bind.
  destruct (urlopen w k (Listing subreddit) ≫= listing_children)
    as [children|]; [|apply R_refl].
  pose proof (posts_loop_lift subreddit children st (S k) Hin) as H.
  by destruct (posts_loop w subreddit children st (S k)) as [[ok st1] k1].
Qed.

End Lift.

Lemma subreddits_loop_lift (R : state → state → Prop) subs st k :
  (∀ st, R st st) →
  (∀ st1 st2 st3, R st1 st2 → R st2 st3 → R st1 st3) →
  (∀ subreddit st st', subreddit ∈ subs → pass w subreddit st st' → R st st') →
  R st (subreddits_loop w subs st k).1.
Proof.
  intros Hrefl Htrans. revert st k.
  induction subs as [|subreddit rest IH]; intros st k Hpass.
  - apply Hrefl.
  - cbn [subreddits_loop]. unfold bind.
    pose proof (fetch_subreddit_lift R (subreddit :: rest) Hrefl Htrans Hpass
                  subreddit st k ltac:(left)) as H.
    destruct (fetch_subreddit w subreddit st k) as [st1 k1]. simpl in H.
    eapply Htrans; [exact H|]. apply IH.
    intros s' st2 st3 Hin. apply Hpass. by right.
Qed.

(** an invariant of the passes holds at the end of the loop over the
    channels *)
Lemma final_state_lift (I : state → Prop) :
  I init →
  (∀ subreddit st st',
     subreddit ∈ subreddits → I st → pass w subreddit st st' → I st') →
  I (final_state w).
Proof.
  intros Hinit Hpass.
  apply (subreddits_loop_lift (fun st st' => I st → I st')
           subreddits init 0%nat); auto.
  intros subreddit st st' Hin Hp Hi. by eapply Hpass.
Qed.

End Passes.

Section StoredItems.

Variable w : World.

Implicit Types (st : state) (post p : dict) (subreddit : pystr).

Lemma clean_text_of_bounds (j : json) text :
  clean_text_of j = Some text →
  (length text ≤ 503)%nat ∧ single_spaced text.
Proof.
  unfold clean_text_of. destruct (negb (truthy j)).
  - intros [= <-]. split; [simpl; lia | apply single_spaced_nil].
  - destruct j as [| | |s| |]; try done. intros [= <-]. split.
    + rewrite clean_text_eq.
      destruct (bool_decide (s = []) || is_marker s); [simpl; lia|].
      apply (length_truncate 500).
    + apply clean_text_single_spaced.
Qed.

Lemma determine_post_type_tags post type :
  determine_post_type post = Some type →
  type = py "text" ∨ type = py "image" ∨ type = py "link".
Proof.
  unfold determine_post_type.
  destruct (truthy (get post "selftext" (JStr ""))); [intros [= <-]; auto|].
  destruct (get post "url" (JStr "")) as [| | |u| |]; try done.
  destruct (has_image_ext u); [intros [= <-]; auto|].
  destruct (_ && _); intros [= <-]; auto.
Qed.

Lemma get_image_url_value post image :
  get_image_url post = Some image → image = JNull ∨ ∃ u, image = JStr u.
Proof.
  unfold get_image_url.
  destruct (get post "url" (JStr "")) as [| | |u| |]; try done.
  destruct (has_image_ext u); [intros [= <-]; eauto|].
  destruct (assoc "preview" post) as [preview|]; [|intros [= <-]; by left].
  destruct (contains "images" preview) as [[]|]; cbn [mbind option_bind];
    try done; [|intros [= <-]; by left].
  destruct (preview_source_url post); intros [= <-]; eauto.
Qed.

Lemma image_type_image post :
  determine_post_type post = Some (py "image") →
  ∃ u, get_image_url post = Some (JStr u).
Proof.
  unfold determine_post_type, get_image_url.
  destruct (truthy (get post "selftext" (JStr ""))); [discriminate|].
  destruct (get post "url" (JStr "")) as [| | |u| |]; try discriminate.
  destruct (has_image_ext u) eqn:E; [by exists u|].
  destruct (_ && _); discriminate.
Qed.

Lemma stored_as_wf subreddit st post p :
  subreddit ∈ subreddits → stored_as w subreddit st post p → wf_post p.
Proof.
  intros Hin (text & type & image & k & _ & Hx & Hy & Hi & ->).
  destruct (clean_text_of_bounds _ _ Hx) as [Hlen Hsp].
  repeat split.
  - by eexists.
  - by exists subreddit.
  - eexists. split; [done|]. apply unit_of_convert.
  - by exists text.
  - exists type. split; [done|]. by eapply determine_post_type_tags.
  - exists image. split; [done|]. by eapply get_image_url_value.
  - intros [= ->]. destruct (image_type_image _ Hy) as [u Hu].
    exists u. cbn. congruence.
Qed.

Lemma stored_as_id subreddit st post p :
  stored_as w subreddit st post p →
  assoc "id" p = Some (JNum (post_id_counter st))
  ∧ assoc "title" p = Some (get post "title" (JStr ""))
  ∧ assoc "reddit_id" p = Some (get post "id" (JStr "")).
Proof. by intros (text & type & image & k & _ & _ & _ & _ & ->). Qed.

Lemma final_posts_wf : Forall wf_post (all_posts (final_state w)).
Proof.
  apply (final_state_lift w (fun st => Forall wf_post (all_posts st)));
    [constructor|].
  intros subreddit st st' Hin Hst
    [-> | post p Hp _ -> | post p Hp _ _ -> | post p k cs Hp _ _ _ ->];
    [done|..]; simpl; apply Forall_app; (split; [done|]);
    apply Forall_singleton; by eapply stored_as_wf.
Qed.

Lemma final_entries_ok : entries_ok (final_state w).
Proof.
  apply (final_state_lift w entries_ok).
  { split; [done|]. intros i l H. simpl in H. by rewrite lookup_empty in H. }
  intros subreddit st st' Hin [Hc He]
    [-> | post p Hp _ -> | post p Hp _ _ -> | post p k cs Hp _ Hid Hcs ->];
    [done|..]; (split; [simpl; lia|]); simpl; intros i l Hl.
  - destruct (He i l Hl) as (? & ? & ? & q & ? & ?).
    repeat (split; [done|]). exists q. split; [|done].
    apply elem_of_app. by left.
  - destruct (He i l Hl) as (? & ? & ? & q & ? & ?).
    split; [lia|]. repeat (split; [done|]). exists q. split; [|done].
    apply elem_of_app. by left.
  - assert (all_comments st !! i = Some l
            ∨ (i = post_id_counter st ∧ l = cs ∧ cs ≠ [])) as [Hold|(-> & -> & Hne)].
    { destruct cs as [|c cs']; [by left|].
      destruct (decide (i = post_id_counter st)) as [->|Hne].
      - rewrite lookup_insert_eq in Hl. injection Hl as <-. by right.
      - rewrite lookup_insert_ne in Hl by done. by left. }
    + destruct (He i l Hold) as (? & ? & ? & q & ? & ?).
      split; [lia|]. repeat (split; [done|]). exists q. split; [|done].
      apply elem_of_app. by left.
    + split; [lia|]. split; [|split].
      * split; [destruct cs; [done | simpl; lia]|].
        rewrite Hcs. apply fetch_post_comments_length.
      * rewrite Hcs. apply fetch_post_comments_wf.
      * destruct (stored_as_id _ _ _ _ Hp) as (Hi & _ & Hr).
        exists p. split; [apply elem_of_app; right; left|]. split; [done|].
        unfold get. rewrite Hr. simpl.
        by apply andb_true_iff in Hid as [? _].
Qed.

End StoredItems.

Section Documents.

Variable w : World.

Lemma unique_by_id (ps : list dict) (p q : dict) (i : json) :
  NoDup (ids ps) → p ∈ ps → q ∈ ps →
  assoc "id" p = Some i → assoc "id" q = Some i → p = q.
Proof.
  intros Hnd Hp Hq Hi Hj.
  apply list_elem_of_lookup in Hp as [a Ha].
  apply list_elem_of_lookup in Hq as [b Hb].
  assert (ids ps !! a = Some (Some i)) as Ea
    by (unfold ids; by rewrite list_lookup_fmap, Ha, <- Hi).
  assert (ids ps !! b = Some (Some i)) as Eb
    by (unfold ids; by rewrite list_lookup_fmap, Hb, <- Hj).
  assert (a = b) as -> by (by eapply NoDup_lookup).
  congruence.
Qed.

Lemma ids_from_1_NoDup n : NoDup (ids_from_1 n).
Proof.
  unfold ids_from_1. apply NoDup_fmap_2; [|apply NoDup_seqZ].
  by intros i j [= ->].
Qed.

Lemma wf_post_intro (p : dict) i s time text t image :
  assoc "id" p = Some (JNum i) →
  assoc "subreddit" p = Some (JStr s) → In s subreddits →
  assoc "time" p = Some (JStr time) → is_Some (unit_of time) →
  assoc "text" p = Some (JStr text) →
  (length text ≤ 503)%nat → collapse text = text →
  assoc "type" p = Some (JStr t) →
  t = py "text" ∨ t = py "image" ∨ t = py "link" →
  assoc "image" p = Some image →
  image = JNull ∨ (∃ u, image = JStr u) →
  (t = py "image" → ∃ u, image = JStr u) →
  wf_post p.
Proof.
  intros Hi Hs Hin Ht Hu Hx Hlen Hc Hy Htag Him Hval Himg.
  repeat split.
  - by exists i.
  - exists s. split; [done|]. by apply list_elem_of_In.
  - by exists time.
  - exists text. repeat (split; [done|]).
    rewrite <- Hc. apply collapse_single_spaced.
  - by exists t.
  - by exists image.
  - rewrite Hy. intros [= ->]. destruct Himg as [u ->]; [done|].
    by exists u.
Qed.

Lemma fallback_posts_wf : Forall wf_post create_fallback_posts.
Proof.
  constructor; [|constructor; [|constructor; [|constructor]]].
  - eapply wf_post_intro; try reflexivity.
    + vm_compute. tauto.
    + vm_compute. eauto.
    + vm_compute. lia.
    + by left.
    + by left.
    + discriminate.
  - eapply wf_post_intro; try reflexivity.
    + vm_compute. tauto.
    + vm_compute. eauto.
    + vm_compute. lia.
    + right. by left.
    + right. by eexists.
    + intros _. by eexists.
  - eapply wf_post_intro; try reflexivity.
    + vm_compute. tauto.
    + vm_compute. eauto.
    + vm_compute. lia.
    + by left.
    + by left.
    + discriminate.
Qed.

End Documents.

Section Fallback.

Lemma fallback_comment_ok author text upvotes time :
  (10 < length (py text))%nat → 1 ≤ upvotes →
  long_text (fallback_comment author text upvotes time)
  ∧ ∃ ups, assoc "upvotes" (fallback_comment author text upvotes time) = Some ups
           ∧ at_least_one ups.
Proof.
  intros Hlen Hu. split.
  - by exists (py text).
  - exists (JNum upvotes). split; [done|]. right. by exists upvotes.
Qed.

Lemma fallback_comments_ok i l :
  create_fallback_comments !! i = Some l →
  1 ≤ i ≤ 3 ∧ (1 ≤ length l ≤ 5)%nat
  ∧ Forall (fun c => long_text c
                     ∧ ∃ ups, assoc "upvotes" c = Some ups ∧ at_least_one ups) l.
Proof.
  unfold create_fallback_comments. intros H.
  repeat (apply lookup_insert_Some in H as [[<- <-] | [_ H]];
    [split; [lia|]; split; [simpl; lia|];
     repeat (constructor; [apply fallback_comment_ok; [vm_compute; lia | lia]|]);
     constructor|]).
  by rewrite lookup_empty in H.
Qed.

End Fallback.

(** X11.  Every item of the document of every run, fetched or fallback, has
    a sequence id, the name of one of the configured channels, a relative
    time, a single-spaced text of at most 503 characters, a type tag that is
    ['text'], ['image'] or ['link'], and as image null or a string, a string
    when the type is ['image']. *)
Theorem stored_items_wf (w : World) : Forall wf_post (posts (run w)).
Proof.
  pose proof (run_cases w) as Hr. simpl in Hr.
  destruct Hr as [(_ & -> & _) | (_ & -> & _)].
  - apply final_posts_wf.
  - apply fallback_posts_wf.
Qed.

(** X12.  In the document of every run, every entry of the mapping belongs
    to an item (its key is between 1 and the item count) and is a list of 1
    to 5 sub-items, each with a text longer than 10 characters and at least
    one upvote. *)
Theorem document_subitems (w : World) (i : Z) (l : list dict) :
  comments (run w) !! i = Some l →
  1 ≤ i ≤ total_posts (run w)
  ∧ (1 ≤ length l ≤ 5)%nat
  ∧ Forall (fun c => long_text c
                     ∧ ∃ ups, assoc "upvotes" c = Some ups ∧ at_least_one ups) l.
Proof.
  pose proof (run_cases w) as Hr. simpl in Hr.
  destruct Hr as [(Hok & _ & -> & -> & _) | (_ & _ & -> & -> & _)].
  - intros H. destruct (final_entries_ok w) as [_ He].
    destruct (He i l H) as (Hi & Hlen & Hwf & _).
    destruct (final_state_invariant w) as (_ & _ & Hs).
    destruct (Hs Hok) as (_ & Hcnt & _).
    split; [lia|]. split; [done|].
    eapply Forall_impl; [exact Hwf|].
    intros c (_ & (text & Ht & [Hl _] & _) & Hu & _). split; [|done].
    by exists text.
  - apply fallback_comments_ok.
Qed.

Lemma document_subitems_witness :
  match comments (run six_comments_world) !! 1 with
  | Some l =>
      1 ≤ 1 ≤ total_posts (run six_comments_world)
      ∧ (1 ≤ length l ≤ 5)%nat
      ∧ Forall (fun c => long_text c
                         ∧ ∃ ups, assoc "upvotes" c = Some ups
                                  ∧ at_least_one ups) l
  | None => False
  end.
Proof.
  destruct (comments (run six_comments_world) !! 1) as [l|] eqn:E.
  - exact (document_subitems six_comments_world 1 l E).
  - vm_compute in E. discriminate.
Defined.

(** X13.  In the document of a run that did not fall back, an entry of the
    mapping belongs to an item with a truthy native id; an item whose native
    id is missing or empty has no entry. *)
Theorem no_native_id_no_subitems (w : World) :
  source (run w) = None →
  (∀ i l, comments (run w) !! i = Some l →
     ∃ p, p ∈ posts (run w) ∧ assoc "id" p = Some (JNum i)
          ∧ truthy (get p "reddit_id" JNull) = true)
  ∧ (∀ p i, p ∈ posts (run w) → assoc "id" p = Some (JNum i) →
       truthy (get p "reddit_id" JNull) = false →
       comments (run w) !! i = None).
Proof.
  intros Hsrc. pose proof (run_cases w) as Hr. simpl in Hr.
  destruct Hr as [(Hok & Ep & Ec & _) | (_ & _ & _ & _ & _ & E)];
    [|congruence].
  rewrite Ep, Ec. destruct (final_entries_ok w) as [_ He].
  assert (∀ i l, all_comments (final_state w) !! i = Some l →
            ∃ p, p ∈ all_posts (final_state w)
                 ∧ assoc "id" p = Some (JNum i)
                 ∧ truthy (get p "reddit_id" JNull) = true) as Hentry.
  { intros i l H. by destruct (He i l H) as (_ & _ & _ & ?). }
  split; [done|].
  intros p i Hp Hi Hfalsy.
  destruct (all_comments (final_state w) !! i) as [l|] eqn:E; [|done].
  destruct (Hentry i l E) as (q & Hq & Hqi & Hqt).
  destruct (final_state_invariant w) as (_ & _ & Hs).
  destruct (Hs Hok) as (Hids & _).
  assert (p = q) as ->.
  { eapply unique_by_id; try done. rewrite Hids. apply ids_from_1_NoDup. }
  congruence.
Qed.

Lemma no_native_id_no_subitems_witness :
  (∃ p, p ∈ posts (run six_comments_world) ∧ assoc "id" p = Some (JNum 1)
        ∧ truthy (get p "reddit_id" JNull) = true).
Proof.
  destruct (no_native_id_no_subitems six_comments_world eq_refl) as [H _].
  eapply H. vm_compute. reflexivity.
Defined.

Section Growth.

Variable w : World.

Implicit Types (st : state) (k : nat).

Lemma grows_refl st : grows st st.
Proof. by repeat split. Qed.

Lemma grows_trans st1 st2 st3 : grows st1 st2 → grows st2 st3 → grows st1 st3.
Proof.
  intros (P1 & L1 & C1 & K1) (P2 & L2 & C2 & K2).
  split; [by etrans|]. split; [by etrans|]. split; [lia|].
  intros H0. destruct (K1 H0) as [H2 S1]. destruct (K2 H2) as [H3 S2].
  split; [done | by etrans].
Qed.

Lemma pass_grows subreddit st st' : pass w subreddit st st' → grows st st'.
Proof.
  intros [-> | post p _ _ -> | post p _ _ _ -> | post p k cs _ _ _ _ ->];
    [apply grows_refl|..];
    (split; [by apply prefix_app_r|]); simpl;
    (split; [done || by apply prefix_app_r|]);
    (split; [lia|]); intros H0; (split; [|try done]).
  - done.
  - intros i l Hl. specialize (H0 i l Hl). simpl. lia.
  - destruct cs as [|c cs']; intros i l Hl; simpl in *.
    + specialize (H0 i l Hl). lia.
    + destruct (decide (i = post_id_counter st)) as [->|Hne]; [lia|].
      rewrite lookup_insert_ne in Hl by done. specialize (H0 i l Hl). lia.
  - destruct cs as [|c cs']; [done|]. apply insert_subseteq.
    destruct (all_comments st !! post_id_counter st) as [l|] eqn:E; [|done].
    specialize (H0 _ _ E). lia.
Qed.

Lemma subreddits_loop_grows subs st k :
  grows st (subreddits_loop w subs st k).1.
Proof.
  apply (subreddits_loop_lift w grows);
    [apply grows_refl | apply grows_trans|].
  intros subreddit st1 st2 _. apply pass_grows.
Qed.

Lemma subreddits_loop_app subs1 subs2 st k :
  subreddits_loop w (subs1 ++ subs2) st k =
  subreddits_loop w subs2 (subreddits_loop w subs1 st k).1
    (subreddits_loop w subs1 st k).2.
Proof.
  revert st k. induction subs1 as [|subreddit rest IH]; intros st k; [done|].
  simpl app. cbn [subreddits_loop]. unfold bind.
  destruct (fetch_subreddit w subreddit st k) as [st1 k1]. apply IH.
Qed.

Lemma keys_below_init : keys_below init.
Proof. intros i l H. simpl in H. by rewrite lookup_empty in H. Qed.

End Growth.

(** X14.  Nothing that is stored is lost: the items, the fetch history and
    the entries of the mapping that the run holds after the first [n]
    channels are still there, in place, at the end of the run, whatever the
    later channels answer. *)
Theorem earlier_results_survive (w : World) (n : nat) :
  let st := (subreddits_loop w (take n subreddits) init 0%nat).1 in
  all_posts st `prefix_of` all_posts (final_state w)
  ∧ fetch_log st `prefix_of` fetch_log (final_state w)
  ∧ all_comments st ⊆ all_comments (final_state w)
  ∧ post_id_counter st ≤ post_id_counter (final_state w).
Proof.
  intros st. unfold final_state.
  rewrite <- (take_drop n subreddits) at 1 2 3 4.
  rewrite subreddits_loop_app. fold st.
  pose proof (subreddits_loop_grows w (take n subreddits) init 0%nat)
    as (_ & _ & _ & K0).
  destruct (K0 keys_below_init) as [Kst _]. fold st in Kst.
  destruct (subreddits_loop_grows w (drop n subreddits) st
              (subreddits_loop w (take n subreddits) init 0%nat).2)
    as (P & L & C & K).
  destruct (K Kst) as [_ S]. done.
Qed.


Section Volume.

Lemma length_blocks subs counts :
  Forall (fun c => (c ≤ 3)%nat) counts →
  (length (blocks subs counts) ≤ 3 * length subs)%nat.
Proof.
  intros H. revert subs. induction H as [|c counts Hc _ IH]; intros subs.
  - destruct subs; simpl; lia.
  - destruct subs as [|s subs]; [simpl; lia|].
    simpl. rewrite length_app, length_replicate. specialize (IH subs). lia.
Qed.

End Volume.

(** X16.  The document of a run never holds more than 75 items, 3 for each
    of the 25 channels. *)
Theorem at_most_75_items (w : World) :
  total_posts (run w) ≤ 75 ∧ (length (posts (run w)) ≤ 75)%nat.
Proof.
  pose proof (run_cases w) as Hr. simpl in Hr.
  destruct Hr as [(_ & -> & _ & -> & _) | (_ & -> & _ & -> & _)];
    [|split; [lia | simpl; lia]].
  destruct (subreddits_loop_blocks w subreddits init 0%nat)
    as (counts & _ & Hc & Hb). fold (final_state w) in Hb.
  change (all_posts init) with (@nil dict) in Hb.
  rewrite fmap_nil, app_nil_l in Hb.
  apply (f_equal length) in Hb. rewrite length_fmap in Hb.
  pose proof (length_blocks subreddits counts Hc) as Hl.
  change (length subreddits) with 25%nat in Hl. lia.
Qed.

Section ChannelShape.

Variable w : World.

Implicit Types (data : json) (children : list json) (st : state).

Lemma listing_children_cases data children :
  listing_children data = Some children →
  children = []
  ∨ (∃ c rest, children = JStr c :: rest)
  ∨ ∃ m inner raw,
      data = JObj m ∧ assoc "data" m = Some inner
      ∧ getitem inner "children" = Some (JArr raw)
      ∧ children = take 3 raw.
Proof.
  unfold listing_children. intros H.
  destruct (contains "data" data) as [[]|]; cbn [mbind option_bind] in H;
    [|injection H as <-; by left | done].
  destruct (getitem data "data") as [inner|] eqn:Ed; [|done].
  cbn [mbind option_bind] in H.
  destruct (contains "children" inner) as [[]|]; cbn [mbind option_bind] in H;
    [|injection H as <-; by left | done].
  destruct (getitem inner "children") as [cs|] eqn:Ec; [|done].
  cbn [mbind option_bind] in H.
  destruct data as [| | | | |m]; try done.
  destruct cs as [| | |s|raw|]; try done; simpl in H; injection H as <-.
  - destruct (take 3 s) as [|c t]; [by left|]. right. left. by eexists _, _.
  - right. right. by exists m, inner, raw.
Qed.

Lemma posts_loop_str subreddit (c : pystr) rest st k :
  posts_loop w subreddit (JStr c :: rest) st k = ((false, st), k).
Proof. reflexivity. Qed.

End ChannelShape.

(** X17.  A channel changes the accumulators only when its response has the
    documented shape: a dict that has, under [data], a dict with a non-empty
    list as [children].  A failed request, and every other response, leaves
    them as they are. *)
Theorem channel_needs_listing (w : World) (subreddit : pystr) (st : state)
    (k : nat) :
  (fetch_subreddit w subreddit st k).1 ≠ st →
  ∃ m inner raw,
    urlopen w k (Listing subreddit) = Some (JObj m)
    ∧ assoc "data" m = Some inner
    ∧ getitem inner "children" = Some (JArr raw)
    ∧ raw ≠ [].
Proof.
  unfold fetch_subreddit, http_get, bind.
  destruct (urlopen w k (Listing subreddit)) as [data|]; [|done].
  cbn [mbind option_bind].
  destruct (listing_children data) as [children|] eqn:E; [|done].
  destruct (listing_children_cases _ _ E)
    as [-> | [(c & rest & ->) | (m & inner & raw & -> & Hd & Hc & ->)]].
  - done.
  - by rewrite posts_loop_str.
  - intros H. exists m, inner, raw. repeat (split; [done|]).
    intros ->. by apply H.
Qed.

Lemma channel_needs_listing_witness :
  ∃ m inner raw,
    urlopen six_comments_world 0 (Listing (py "science")) = Some (JObj m)
    ∧ assoc "data" m = Some inner
    ∧ getitem inner "children" = Some (JArr raw)
    ∧ raw ≠ [].
Proof.
  apply (channel_needs_listing six_comments_world (py "science") init 0%nat).
  intros E. apply (f_equal post_id_counter) in E. vm_compute in E.
  discriminate.
Defined.

Section TextAndTitle.

Variable w : World.

Implicit Types (st : state) (post p : dict) (subreddit : pystr).

Lemma stored_as_text subreddit st post p :
  stored_as w subreddit st post p →
  assoc "type" p = Some (JStr "text") ∨ assoc "text" p = Some (JStr []).
Proof.
  intros (text & type & image & k & _ & Hx & Hy & _ & ->).
  unfold determine_post_type in Hy. unfold clean_text_of in Hx.
  destruct (truthy (get post "selftext" (JStr ""))).
  - left. by injection Hy as <-.
  - right. simpl in Hx. by injection Hx as <-.
Qed.

Lemma stored_as_title subreddit st post p :
  stored_as w subreddit st post p →
  assoc "title" p ≠ Some (JStr "[deleted]").
Proof.
  intros (text & type & image & k & Hskip & _ & _ & _ & ->).
  apply orb_false_iff in Hskip as [_ Hd].
  change (assoc "title" (processed_post w st subreddit post
            (convert_reddit_time w (get post "created_utc" (JNum 0)) k).1
            text type image))
    with (Some (get post "title" (JStr ""))).
  unfold get in *. destruct (assoc "title" post) as [t|]; simpl in *.
  - intros [= ->]. unfold is_str in Hd.
    by apply bool_decide_eq_false in Hd.
  - discriminate.
Qed.

Lemma final_posts_text_title :
  Forall (fun p =>
            (assoc "type" p = Some (JStr "text")
             ∨ assoc "text" p = Some (JStr []))
            ∧ assoc "title" p ≠ Some (JStr "[deleted]"))
    (all_posts (final_state w)).
Proof.
  apply (final_state_lift w (fun st => Forall _ (all_posts st)));
    [constructor|].
  intros subreddit st st' Hin Hst
    [-> | post p Hp _ -> | post p Hp _ _ -> | post p k cs Hp _ _ _ ->];
    [done|..]; simpl; apply Forall_app; (split; [done|]);
    apply Forall_singleton;
    (split; [by eapply stored_as_text | by eapply stored_as_title]).
Qed.

End TextAndTitle.

(** X18.  In the document of every run an item that is no ['text'] item has
    the empty text: an ['image'] or ['link'] item never carries body text.
    No item has the title ['[deleted]']. *)
Theorem text_only_on_text_items (w : World) :
  Forall (fun p =>
            (assoc "type" p = Some (JStr "text")
             ∨ assoc "text" p = Some (JStr []))
            ∧ assoc "title" p ≠ Some (JStr "[deleted]"))
    (posts (run w)).
Proof.
  pose proof (run_cases w) as Hr. simpl in Hr.
  destruct Hr as [(_ & -> & _) | (_ & -> & _)].
  - apply final_posts_text_title.
  - repeat constructor; (by left) || (by right) || discriminate.
Qed.
